(** * Recipeh: the socket dispatcher of [main.py] and its three operations

    A shallow embedding of [src/main.py]: the request dispatcher
    [handle_client_connection] and the methods of [EmailAutomation]
    ([send_email], [fetch_recent_emails], [_get_email_body],
    [get_recipe_ingredients]).

    Python values are a first-order datatype, exceptions are the [Raise]
    outcome of a computation, and every call that leaves the process
    (socket, SMTP, IMAP, HTTP) is recorded in a trace and answered by a
    [World].  [print] writes to the server's standard output: it is not
    one of the recorded calls, but it can raise, and the [World] says
    when. *)

From Stdlib Require Import String Ascii List ZArith Lia Bool SpecFloat DecimalString.
Import ListNotations.
Local Open Scope list_scope.
Local Open Scope string_scope.
Set Warnings "-register-all".

(** ** Python values *)

(** The objects the program handles: what [json.loads] can produce
    ([None], [bool], [int], [float], [str], [list], [dict] with string
    keys), [bytes] (IMAP message ids), and objects of other classes, of
    which only the class name matters here.  A [dict] is the list of its
    entries in insertion order; Python keeps the keys distinct, and
    [assoc] takes the first entry with the key. *)
Inductive value : Type :=
| VNone
| VBool (b : bool)
| VInt (n : Z)
| VFloat (f : spec_float)
| VStr (s : string)
| VBytes (b : string)
| VList (items : list value)
| VDict (entries : list (string * value))
| VOpaque (class_name : string).

(** [type(v).__name__] *)
Definition type_name (v : value) : string :=
  match v with
  | VNone => "NoneType"
  | VBool _ => "bool"
  | VInt _ => "int"
  | VFloat _ => "float"
  | VStr _ => "str"
  | VBytes _ => "bytes"
  | VList _ => "list"
  | VDict _ => "dict"
  | VOpaque c => c
  end.

(** [bool(v)], as used by [if v:] *)
Definition truthy (v : value) : bool :=
  match v with
  | VNone => false
  | VBool b => b
  | VInt n => negb (n =? 0)%Z
  | VFloat (S754_zero _) => false
  | VFloat _ => true
  | VStr s => negb (s =? "")
  | VBytes b => negb (b =? "")
  | VList items => match items with [] => false | _ => true end
  | VDict entries => match entries with [] => false | _ => true end
  | VOpaque _ => true
  end.

(** [v == s] for a string literal [s] *)
Definition eq_str (v : value) (s : string) : bool :=
  match v with
  | VStr s' => s' =? s
  | _ => false
  end.

Fixpoint assoc (k : string) (entries : list (string * value)) : option value :=
  match entries with
  | [] => None
  | (k', v) :: rest => if k' =? k then Some v else assoc k rest
  end.

(** The line feed, written ['\n'] in the source. *)
Definition nl : string := String (ascii_of_nat 10) "".

Definition str_of_nat (n : nat) : string := NilZero.string_of_uint (Nat.to_uint n).
Definition str_of_Z (n : Z) : string := NilZero.string_of_int (Z.to_int n).

(** ** Outcomes and exceptions *)

(** An exception is represented by [str(e)], the only thing the program
    ever reads from one; every handler in the source is
    [except Exception]. *)
Definition exn := string.

Inductive result (A : Type) : Type :=
| Ok (a : A)
| Raise (e : exn).
Arguments Ok {A} a.
Arguments Raise {A} e.

Definition rbind {A B} (r : result A) (f : A -> result B) : result B :=
  match r with
  | Ok a => f a
  | Raise e => Raise e
  end.

Fixpoint rmap {A B} (f : A -> result B) (l : list A) : result (list B) :=
  match l with
  | [] => Ok []
  | a :: rest =>
      rbind (f a) (fun b => rbind (rmap f rest) (fun bs => Ok (b :: bs)))
  end.

(** ** Python operations on values that can raise *)

(** [v.get(key, default)] *)
Definition py_get (v : value) (key : string) (default : value) : result value :=
  match v with
  | VDict entries =>
      Ok (match assoc key entries with Some x => x | None => default end)
  | _ => Raise ("'" ++ type_name v ++ "' object has no attribute 'get'")
  end.

(** [v[key]] for a string [key].  The messages are CPython's (3.11 and
    later); the only caller, [get_recipe_ingredients], discards them. *)
Definition getitem_key (v : value) (key : string) : result value :=
  match v with
  | VDict entries =>
      match assoc key entries with
      | Some x => Ok x
      | None => Raise ("'" ++ key ++ "'")
      end
  | VList _ => Raise "list indices must be integers or slices, not str"
  | VStr _ => Raise "string indices must be integers, not 'str'"
  | VBytes _ => Raise "byte indices must be integers or slices, not str"
  | _ => Raise ("'" ++ type_name v ++ "' object is not subscriptable")
  end.

(** [v[0]] *)
Definition getitem_0 (v : value) : result value :=
  match v with
  | VList (x :: _) => Ok x
  | VList [] => Raise "list index out of range"
  | VStr (String c _) => Ok (VStr (String c ""))
  | VStr EmptyString => Raise "string index out of range"
  | VBytes (String c _) => Ok (VInt (Z.of_nat (nat_of_ascii c)))
  | VBytes EmptyString => Raise "index out of range"
  | VDict _ => Raise "0"
  | _ => Raise ("'" ++ type_name v ++ "' object is not subscriptable")
  end.

Fixpoint chars (s : string) : list string :=
  match s with
  | EmptyString => []
  | String c rest => String c "" :: chars rest
  end.

Fixpoint octets (s : string) : list Z :=
  match s with
  | EmptyString => []
  | String c rest => Z.of_nat (nat_of_ascii c) :: octets rest
  end.

(** The items [for x in v] visits. *)
Definition py_iter (v : value) : result (list value) :=
  match v with
  | VList items => Ok items
  | VDict entries => Ok (map (fun kv => VStr (fst kv)) entries)
  | VStr s => Ok (map VStr (chars s))
  | VBytes b => Ok (map VInt (octets b))
  | _ => Raise ("'" ++ type_name v ++ "' object is not iterable")
  end.

(** [sep.join(items)]: every item has to be a [str]. *)
Fixpoint join_from (i : nat) (sep : string) (items : list value) : result string :=
  match items with
  | [] => Ok ""
  | x :: rest =>
      match x with
      | VStr s =>
          rbind (join_from (S i) sep rest)
                (fun tl => Ok (match rest with [] => s | _ => s ++ sep ++ tl end))
      | _ => Raise ("sequence item " ++ str_of_nat i ++ ": expected str instance, "
                      ++ type_name x ++ " found")
      end
  end.

Definition str_join (sep : string) (items : list value) : result string :=
  join_from 0 sep items.

(** [l[start:]] *)
Definition slice_from {A} (start : Z) (l : list A) : list A :=
  let n := Z.of_nat (length l) in
  let s := if (start <? 0)%Z then Z.max (start + n) 0 else Z.min start n in
  skipn (Z.to_nat s) l.

(** [b.split()]: the maximal runs of non-whitespace bytes. *)
Definition is_space (c : ascii) : bool :=
  let n := nat_of_ascii c in
  (n =? 32)%nat || ((9 <=? n)%nat && (n <=? 13)%nat).

Fixpoint split_ws (cur : string) (s : string) : list string :=
  match s with
  | EmptyString => match cur with EmptyString => [] | _ => [cur] end
  | String c rest =>
      if is_space c
      then match cur with
           | EmptyString => split_ws "" rest
           | _ => cur :: split_ws "" rest
           end
      else split_ws (cur ++ String c "") rest
  end.

Definition bytes_split (b : string) : list string := split_ws "" b.

(** ** JSON encoding *)

(** [json.dumps] walks the object in order and raises [TypeError] at the
    first object it cannot encode. *)
Fixpoint not_serializable (v : value) : option string :=
  match v with
  | VBytes _ => Some "bytes"
  | VOpaque c => Some c
  | VList items =>
      (fix first (l : list value) : option string :=
         match l with
         | [] => None
         | x :: rest =>
             match not_serializable x with
             | Some t => Some t
             | None => first rest
             end
         end) items
  | VDict entries =>
      (fix first (l : list (string * value)) : option string :=
         match l with
         | [] => None
         | (_, x) :: rest =>
             match not_serializable x with
             | Some t => Some t
             | None => first rest
             end
         end) entries
  | _ => None
  end.

(** What is written to the socket is always
    [json.dumps(v).encode('utf-8')] for some object [v]; a payload is
    represented by that object. *)
Inductive payload : Type := JsonText (v : value).

Definition json_dumps (v : value) : result payload :=
  match not_serializable v with
  | Some t => Raise ("Object of type " ++ t ++ " is not JSON serializable")
  | None => Ok (JsonText v)
  end.

(** ** Mail messages *)

(** A parsed message as [_get_email_body] and [fetch_recent_emails]
    read it: the values of [msg['Subject']] and [msg['From']], the
    result of [get_content_type()], and either the transfer-decoded
    payload ([get_payload(decode=True)]) or the list of sub-parts. *)
Inductive message : Type :=
| Single (subject sender : value) (content_type : string) (decoded : string)
| Multipart (subject sender : value) (content_type : string) (parts : list message).

Definition msg_subject (m : message) : value :=
  match m with Single s _ _ _ | Multipart s _ _ _ => s end.
Definition msg_sender (m : message) : value :=
  match m with Single _ f _ _ | Multipart _ f _ _ => f end.
Definition get_content_type (m : message) : string :=
  match m with Single _ _ c _ | Multipart _ _ c _ => c end.
Definition is_multipart (m : message) : bool :=
  match m with Single _ _ _ _ => false | Multipart _ _ _ _ => true end.

(** [get_payload(decode=True)]: [None] for a multipart message. *)
Definition get_payload_decoded (m : message) : value :=
  match m with
  | Single _ _ _ b => VBytes b
  | Multipart _ _ _ _ => VNone
  end.

(** [walk()]: the message itself, then the walk of each sub-part. *)
Fixpoint walk (m : message) : list message :=
  m :: match m with
       | Single _ _ _ _ => []
       | Multipart _ _ _ parts => flat_map walk parts
       end.

(** The message [send_email] builds: a [MIMEMultipart] with three
    headers and the attached parts. *)
Inductive mime_part : Type := MIMEText (text : string) (subtype : string).

Record mime : Type := MIMEMultipart {
  mime_from : value;
  mime_to : value;
  mime_subject : string;
  mime_attached : list mime_part
}.

(** ** The world outside the process *)

(** The calls that leave the process, with their arguments. *)
Inductive event : Type :=
| ConnRecv (bufsize : Z)
| ConnSendall (data : payload)
| ConnClose
| HttpGet (url : string) (params : list (string * value))
| SmtpConnect (host : string) (port : Z)
| SmtpStarttls
| SmtpLogin (user password : value)
| SmtpSendmail (from_addr to_addr : value) (msg : string)
| SmtpQuit
| ImapConnect (host : string) (port : Z)
| ImapLogin (user password : value)
| ImapSelect (mailbox : string)
| ImapSearch (criteria : string)
| ImapFetch (message_id : string) (message_parts : string)
| ImapClose
| ImapLogout.

Definition trace := list event.

(** How the peer, the servers, the process environment and the library
    codecs answer.  [imap_search] gives [search_data[0]] and
    [imap_fetch] gives [msg_data[0][1]]; [mime_as_string] covers
    building the [MIMEText] part and flattening the message;
    [py_repr] is [str()] of the objects whose text is not modelled;
    [stdout_print] is the outcome of [print(text)]. *)
Record World : Type := {
  conn_recv : Z -> result string;
  conn_sendall : payload -> result unit;
  conn_close : result unit;
  utf8_decode : string -> result string;
  json_loads : string -> result value;
  getenv : string -> option string;
  requests_get : string -> list (string * value) -> result string;
  response_json : string -> result value;
  smtp_connect : string -> Z -> result unit;
  smtp_starttls : result unit;
  smtp_login : value -> value -> result unit;
  mime_as_string : mime -> result string;
  smtp_sendmail : value -> value -> string -> result unit;
  smtp_quit : result unit;
  imap_connect : string -> Z -> result unit;
  imap_login : value -> value -> result unit;
  imap_select : string -> result unit;
  imap_search : string -> result string;
  imap_fetch : string -> string -> result string;
  message_from_bytes : string -> result message;
  imap_close : result unit;
  imap_logout : result unit;
  py_repr : value -> string;
  stdout_print : string -> result unit
}.

(** ** Computations: a trace of calls and an outcome *)

Definition M (A : Type) : Type := (trace * result A)%type.

Definition ret {A} (a : A) : M A := ([], Ok a).

Definition bind {A B} (m : M A) (f : A -> M B) : M B :=
  match m with
  | (t, Ok a) => let (t', r) := f a in ((t ++ t')%list, r)
  | (t, Raise e) => (t, Raise e)
  end.

(** A pure step that may raise. *)
Definition lift {A} (r : result A) : M A := ([], r).

(** A call that leaves the process: recorded, then answered. *)
Definition call {A} (ev : event) (answer : result A) : M A := ([ev], answer).

(** [try: body  except Exception as e: handler e] *)
Definition try_except {A} (body : M A) (handler : exn -> M A) : M A :=
  match body with
  | (t, Ok a) => (t, Ok a)
  | (t, Raise e) => let (t', r) := handler e in ((t ++ t')%list, r)
  end.

(** [try: body  finally: cleanup] *)
Definition try_finally {A} (body : M A) (cleanup : M unit) : M A :=
  match body, cleanup with
  | (t, r), (t', Ok _) => ((t ++ t')%list, r)
  | (t, _), (t', Raise e) => ((t ++ t')%list, Raise e)
  end.

Declare Scope py_scope.
Delimit Scope py_scope with py.
Notation "x <- m ;; k" := (bind m (fun x => k))
  (at level 100, m at next level, right associativity) : py_scope.
Notation "m ;; k" := (bind m (fun _ => k))
  (at level 100, right associativity) : py_scope.
Local Open Scope py_scope.

(** ** [class EmailAutomation] *)

(** [url] and [params] of [get_recipe_ingredients]. *)
Definition recipe_search_url : string :=
  "https://api.spoonacular.com/recipes/complexSearch".

Definition recipe_search_params (food_type api_key : value) : list (string * value) :=
  [("query", food_type);
   ("apiKey", api_key);
   ("number", VInt 1);
   ("addRecipeInformation", VBool true);
   ("fillIngredients", VBool true)].

Record EmailAutomation : Type := {
  email_address : value;
  email_password : value;
  imap_server : string;
  smtp_server : string;
  imap_port : Z;
  smtp_port : Z
}.

(** [__init__] with the default servers. *)
Definition EmailAutomation_init (address password : value) : EmailAutomation :=
  {| email_address := address;
     email_password := password;
     imap_server := "imap.gmail.com";
     smtp_server := "smtp.gmail.com";
     imap_port := 993;
     smtp_port := 587 |}.

Definition opt_value (o : option string) : value :=
  match o with
  | Some s => VStr s
  | None => VNone
  end.

Section Program.

Variable w : World.

(** [f"{v}"] *)
Definition format_value (v : value) : string :=
  match v with
  | VStr s => s
  | VNone => "None"
  | VBool true => "True"
  | VBool false => "False"
  | VInt n => str_of_Z n
  | _ => py_repr w v
  end.

(** [print(text)]: a write to the standard output of the server.  It
    is not among the recorded calls, but it can raise. *)
Definition py_print (text : string) : M unit := lift (stdout_print w text).

(** [v.decode()] *)
Definition py_decode (v : value) : result string :=
  match v with
  | VBytes b => utf8_decode w b
  | _ => Raise ("'" ++ type_name v ++ "' object has no attribute 'decode'")
  end.

Definition send_email (self : EmailAutomation) (recipient_email : value)
    (subject body : string) : M (bool * string) :=
  try_except
    (call (SmtpConnect (smtp_server self) (smtp_port self))
          (smtp_connect w (smtp_server self) (smtp_port self)) ;;
     call SmtpStarttls (smtp_starttls w) ;;
     call (SmtpLogin (email_address self) (email_password self))
          (smtp_login w (email_address self) (email_password self)) ;;
     let msg := {| mime_from := email_address self;
                   mime_to := recipient_email;
                   mime_subject := subject;
                   mime_attached := [MIMEText body "plain"] |} in
     text <- lift (mime_as_string w msg) ;;
     call (SmtpSendmail (email_address self) recipient_email text)
          (smtp_sendmail w (email_address self) recipient_email text) ;;
     call SmtpQuit (smtp_quit w) ;;
     ret (true, "Email sent successfully"))
    (fun e =>
       py_print ("SMTP Email sending error: " ++ e) ;;
       ret (false, e)).

(** The [for part in email_message.walk()] loop of [_get_email_body];
    [body] is [""] when the loop starts and is assigned once, just
    before [break]. *)
Fixpoint body_loop (parts : list message) (body : string) : result string :=
  match parts with
  | [] => Ok body
  | part :: rest =>
      let content_type := get_content_type part in
      if content_type =? "text/plain"
      then py_decode (get_payload_decoded part)
      else body_loop rest body
  end.

Definition _get_email_body (email_message : message) : result string :=
  let body := "" in
  if is_multipart email_message
  then body_loop (walk email_message) body
  else py_decode (get_payload_decoded email_message).

(** One turn of the [for email_id in ...] loop: the summary appended to
    [emails]. *)
Definition fetch_one (email_id : string) : M value :=
  raw_email <- call (ImapFetch email_id "(RFC822)") (imap_fetch w email_id "(RFC822)") ;;
  email_message <- lift (message_from_bytes w raw_email) ;;
  let subject := msg_subject email_message in
  let sender := msg_sender email_message in
  body <- lift (_get_email_body email_message) ;;
  ret (VDict [("id", VBytes email_id);
              ("subject", subject);
              ("sender", sender);
              ("body", VStr body)]).

Fixpoint fetch_loop (email_ids : list string) (emails : list value) : M (list value) :=
  match email_ids with
  | [] => ret emails
  | email_id :: rest =>
      summary <- fetch_one email_id ;;
      fetch_loop rest (emails ++ [summary])%list
  end.

Definition fetch_recent_emails (self : EmailAutomation) (search_criteria : string)
    (limit : Z) : M (list value) :=
  try_except
    (call (ImapConnect (imap_server self) (imap_port self))
          (imap_connect w (imap_server self) (imap_port self)) ;;
     call (ImapLogin (email_address self) (email_password self))
          (imap_login w (email_address self) (email_password self)) ;;
     call (ImapSelect "inbox") (imap_select w "inbox") ;;
     search_data_0 <- call (ImapSearch search_criteria) (imap_search w search_criteria) ;;
     let email_ids := bytes_split search_data_0 in
     emails <- fetch_loop (slice_from (- limit) email_ids) [] ;;
     call ImapClose (imap_close w) ;;
     call ImapLogout (imap_logout w) ;;
     ret emails)
    (fun e =>
       py_print ("IMAP Email fetching error: " ++ e) ;;
       ret []).

Definition get_recipe_ingredients (food_type api_key : value) : M (list value) :=
  let url := recipe_search_url in
  let params := recipe_search_params food_type api_key in
  try_except
    (response <- call (HttpGet url params) (requests_get w url params) ;;
     data <- lift (response_json w response) ;;
     results <- lift (getitem_key data "results") ;;
     if truthy results
     then
       first <- lift (getitem_0 results) ;;
       extended <- lift (getitem_key first "extendedIngredients") ;;
       items <- lift (py_iter extended) ;;
       lift (rmap (fun ingredient => getitem_key ingredient "original") items)
     else ret [])
    (fun e =>
       py_print ("API Error: " ++ e) ;;
       ret []).

(** The two f-strings of the recipe branch (lines 175 and 176). *)
Definition recipe_subject (food_type : value) : string :=
  "Ingredients for " ++ format_value food_type ++ " Recipe".

Definition recipe_body (food_type : value) (ingredients_list : string) : string :=
  "Here are the ingredients for your " ++ format_value food_type
    ++ " recipe:" ++ nl ++ nl ++ ingredients_list.

(** Lines 153-208 of [handle_client_connection]: from the decoded
    request to the [response] object. *)
Definition dispatch (request_data : value) : M value :=
  request_type <- lift (py_get request_data "type" (VStr "recipe")) ;;
  let email_automation :=
    EmailAutomation_init (opt_value (getenv w "EMAIL_ADDRESS"))
                         (opt_value (getenv w "EMAIL_PASSWORD")) in
  if eq_str request_type "recipe"
  then
    food_type <- lift (py_get request_data "food_type" VNone) ;;
    recipient_email <- lift (py_get request_data "recipient_email" VNone) ;;
    ingredients <- get_recipe_ingredients food_type
                     (opt_value (getenv w "SPOONACULAR_API_KEY")) ;;
    if truthy (VList ingredients)
    then
      ingredients_list <- lift (str_join nl ingredients) ;;
      let subject := recipe_subject food_type in
      let body := recipe_body food_type ingredients_list in
      sent <- send_email email_automation recipient_email subject body ;;
      let (success, message) := sent : bool * string in
      ret (VDict [("success", VBool success);
                  ("message", VStr message);
                  ("ingredients", VList ingredients)])
    else
      ret (VDict [("success", VBool false);
                  ("message", VStr "No ingredients found");
                  ("ingredients", VList [])])
  else if eq_str request_type "fetch_emails"
  then
    emails <- fetch_recent_emails email_automation "UNSEEN" 5 ;;
    ret (VDict [("success", VBool true);
                ("emails", VList emails)])
  else
    ret (VDict [("success", VBool false);
                ("message", VStr "Invalid request type")]).

Definition send_response (response : value) : M unit :=
  data <- lift (json_dumps response) ;;
  call (ConnSendall data) (conn_sendall w data).

Definition handle_client_connection : M unit :=
  try_finally
    (try_except
       (data <- call (ConnRecv 1024) (conn_recv w 1024) ;;
        if negb (truthy (VBytes data))
        then ret tt
        else
          text <- lift (utf8_decode w data) ;;
          request_data <- lift (json_loads w text) ;;
          response <- dispatch request_data ;;
          send_response response)
       (fun e =>
          py_print ("Error handling client connection: " ++ e) ;;
          send_response (VDict [("success", VBool false);
                                ("message", VStr e)])))
    (call ConnClose (conn_close w)).

End Program.

Arguments send_response w response : simpl never.

(** ** Projections of a trace *)

Definition is_conn (ev : event) : bool :=
  match ev with
  | ConnRecv _ | ConnSendall _ | ConnClose => true
  | _ => false
  end.

Definition is_smtp (ev : event) : bool :=
  match ev with
  | SmtpConnect _ _ | SmtpStarttls | SmtpLogin _ _ | SmtpSendmail _ _ _ | SmtpQuit => true
  | _ => false
  end.

(** The payloads written to the connection, in order. *)
Fixpoint responses (t : trace) : list payload :=
  match t with
  | [] => []
  | ConnSendall p :: rest => p :: responses rest
  | _ :: rest => responses rest
  end.

(** How often the connection is closed. *)
Fixpoint closes (t : trace) : nat :=
  match t with
  | [] => 0
  | ConnClose :: rest => S (closes rest)
  | _ :: rest => closes rest
  end.

(** ** The response objects *)

Definition invalid_request_response : value :=
  VDict [("success", VBool false); ("message", VStr "Invalid request type")].

Definition no_ingredients_response : value :=
  VDict [("success", VBool false);
         ("message", VStr "No ingredients found");
         ("ingredients", VList [])].

Definition recipe_response (success : bool) (message : string) (ingredients : list value) : value :=
  VDict [("success", VBool success);
         ("message", VStr message);
         ("ingredients", VList ingredients)].

Definition emails_response (emails : list value) : value :=
  VDict [("success", VBool true); ("emails", VList emails)].

Definition error_response (text : string) : value :=
  VDict [("success", VBool false); ("message", VStr text)].

(** ** Example worlds *)

(** A world given by what the peer sends, what the request decodes to,
    the recipe API's answer, the IMAP search result and the parsed
    messages; every other call succeeds, and the codecs are the
    identity on the ASCII texts used below. *)
Definition example_world (received : result string) (request : result value)
    (api : result value) (search : result string)
    (inbox : string -> result message) : World :=
  {| conn_recv := fun _ => received;
     conn_sendall := fun _ => Ok tt;
     conn_close := Ok tt;
     utf8_decode := fun b => Ok b;
     json_loads := fun _ => request;
     getenv := fun name => Some name;
     requests_get := fun _ _ => Ok "body";
     response_json := fun _ => api;
     smtp_connect := fun _ _ => Ok tt;
     smtp_starttls := Ok tt;
     smtp_login := fun _ _ => Ok tt;
     mime_as_string := fun m =>
       Ok (match mime_attached m with
           | [MIMEText text _] => mime_subject m ++ nl ++ nl ++ text
           | _ => mime_subject m
           end);
     smtp_sendmail := fun _ _ _ => Ok tt;
     smtp_quit := Ok tt;
     imap_connect := fun _ _ => Ok tt;
     imap_login := fun _ _ => Ok tt;
     imap_select := fun _ => Ok tt;
     imap_search := fun _ => search;
     imap_fetch := fun email_id _ => Ok email_id;
     message_from_bytes := inbox;
     imap_close := Ok tt;
     imap_logout := Ok tt;
     py_repr := fun v => "<" ++ type_name v ++ ">";
     stdout_print := fun _ => Ok tt |}.

Definition no_inbox : string -> result message :=
  fun _ => Raise "no message".

Definition pasta_request : value :=
  VDict [("type", VStr "recipe");
         ("food_type", VStr "pasta");
         ("recipient_email", VStr "a@b.com")].

Definition pasta_api : value :=
  VDict [("results",
          VList [VDict [("id", VInt 1);
                        ("extendedIngredients",
                         VList [VDict [("original", VStr "200g pasta")];
                                VDict [("original", VStr "1 onion")]])]])].

(** The scenario of the specification: a pasta request, two ingredients. *)
Definition pasta_world : World :=
  example_world (Ok "{pasta request}") (Ok pasta_request) (Ok pasta_api)
                (Raise "unused") no_inbox.

(** A request without a [type] field; the recipe API finds nothing. *)
Definition untyped_world : World :=
  example_world (Ok "{}") (Ok (VDict [])) (Ok (VDict [("results", VList [])]))
                (Raise "unused") no_inbox.

(** A recipe request for a dish the recipe API does not know. *)
Definition unknown_dish_request : value :=
  VDict [("type", VStr "recipe");
         ("food_type", VStr "zzz");
         ("recipient_email", VStr "a@b.com")].

Definition unknown_dish_world : World :=
  example_world (Ok "{zzz request}") (Ok unknown_dish_request)
                (Ok (VDict [("results", VList [])])) (Raise "unused") no_inbox.

(** A request of an unknown type. *)
Definition unknown_type_world : World :=
  example_world (Ok "{type: ping}") (Ok (VDict [("type", VStr "ping")]))
                (Raise "unused") (Raise "unused") no_inbox.

(** The peer closes its side without sending anything. *)
Definition silent_peer_world : World :=
  example_world (Ok "") (Raise "unused") (Raise "unused") (Raise "unused") no_inbox.

Definition plain_message : message :=
  Single (VStr "Hello") (VStr "bob@example.com") "text/plain" "Hi there".

Definition html_only_message : message :=
  Multipart (VStr "News") (VStr "news@example.com") "multipart/alternative"
    [Single VNone VNone "text/html" "<p>Hi</p>"].

Definition mixed_message : message :=
  Multipart (VStr "Report") (VStr "carol@example.com") "multipart/mixed"
    [Multipart VNone VNone "multipart/alternative"
       [Single VNone VNone "text/html" "<p>first</p>";
        Single VNone VNone "text/plain" "first plain"];
     Single VNone VNone "text/plain" "second plain"].

Definition example_inbox : string -> result message :=
  fun raw =>
    if raw =? "1" then Ok plain_message
    else if raw =? "2" then Ok html_only_message
    else if raw =? "3" then Ok mixed_message
    else Raise "no such message".

(** A [fetch_emails] request; the inbox holds three unseen messages. *)
Definition inbox_world : World :=
  example_world (Ok "{type: fetch_emails}") (Ok (VDict [("type", VStr "fetch_emails")]))
                (Raise "unused") (Ok "1 2 3") example_inbox.

(** A [fetch_emails] request; the inbox holds one unseen message. *)
Definition one_unseen_world : World :=
  example_world (Ok "{type: fetch_emails}") (Ok (VDict [("type", VStr "fetch_emails")]))
                (Raise "unused") (Ok "1") example_inbox.

(** ** Notions used in the statements *)

(** The test of line 106. *)
Definition is_text_plain (part : message) : bool :=
  get_content_type part =? "text/plain".

(** The message [send_email] hands to the server. *)
Definition outgoing (self : EmailAutomation) (recipient_email : value)
    (subject body : string) : mime :=
  {| mime_from := email_address self;
     mime_to := recipient_email;
     mime_subject := subject;
     mime_attached := [MIMEText body "plain"] |}.

(** What the SMTP conversation comes to: [Ok] when each step succeeds,
    and otherwise the exception of the first step that fails. *)
Definition smtp_conversation (w : World) (self : EmailAutomation)
    (recipient_email : value) (subject body : string) : result unit :=
  rbind (smtp_connect w (smtp_server self) (smtp_port self)) (fun _ =>
  rbind (smtp_starttls w) (fun _ =>
  rbind (smtp_login w (email_address self) (email_password self)) (fun _ =>
  rbind (mime_as_string w (outgoing self recipient_email subject body)) (fun text =>
  rbind (smtp_sendmail w (email_address self) recipient_email text) (fun _ =>
  smtp_quit w))))).

(** A world whose SMTP server refuses the login. *)
Definition login_refused_world : World :=
  {| conn_recv := conn_recv pasta_world;
     conn_sendall := conn_sendall pasta_world;
     conn_close := conn_close pasta_world;
     utf8_decode := utf8_decode pasta_world;
     json_loads := json_loads pasta_world;
     getenv := getenv pasta_world;
     requests_get := requests_get pasta_world;
     response_json := response_json pasta_world;
     smtp_connect := smtp_connect pasta_world;
     smtp_starttls := smtp_starttls pasta_world;
     smtp_login := fun _ _ => Raise "(535, b'5.7.8 Username and Password not accepted')";
     mime_as_string := mime_as_string pasta_world;
     smtp_sendmail := smtp_sendmail pasta_world;
     smtp_quit := smtp_quit pasta_world;
     imap_connect := imap_connect pasta_world;
     imap_login := imap_login pasta_world;
     imap_select := imap_select pasta_world;
     imap_search := imap_search pasta_world;
     imap_fetch := imap_fetch pasta_world;
     message_from_bytes := message_from_bytes pasta_world;
     imap_close := imap_close pasta_world;
     imap_logout := imap_logout pasta_world;
     py_repr := py_repr pasta_world;
     stdout_print := stdout_print pasta_world |}.

(** Lines 130-134 on the parsed response [data]: the pure part of the
    [try] block. *)
Definition ingredients_of (data : value) : result (list value) :=
  rbind (getitem_key data "results") (fun results =>
  if truthy results
  then
    rbind (getitem_0 results) (fun first =>
    rbind (getitem_key first "extendedIngredients") (fun extended =>
    rbind (py_iter extended) (fun items =>
    rmap (fun ingredient => getitem_key ingredient "original") items)))
  else Ok []).

(** The answer of the API as the [try] block sees it. *)
Definition api_answer (w : World) (food_type api_key : value) : result (list value) :=
  rbind (requests_get w recipe_search_url (recipe_search_params food_type api_key))
        (fun response => rbind (response_json w response) ingredients_of).

(** The recipe API cannot be reached. *)
Definition api_down_world : World :=
  {| conn_recv := conn_recv pasta_world;
     conn_sendall := conn_sendall pasta_world;
     conn_close := conn_close pasta_world;
     utf8_decode := utf8_decode pasta_world;
     json_loads := json_loads pasta_world;
     getenv := getenv pasta_world;
     requests_get := fun _ _ => Raise "Max retries exceeded";
     response_json := response_json pasta_world;
     smtp_connect := smtp_connect pasta_world;
     smtp_starttls := smtp_starttls pasta_world;
     smtp_login := smtp_login pasta_world;
     mime_as_string := mime_as_string pasta_world;
     smtp_sendmail := smtp_sendmail pasta_world;
     smtp_quit := smtp_quit pasta_world;
     imap_connect := imap_connect pasta_world;
     imap_login := imap_login pasta_world;
     imap_select := imap_select pasta_world;
     imap_search := imap_search pasta_world;
     imap_fetch := imap_fetch pasta_world;
     message_from_bytes := message_from_bytes pasta_world;
     imap_close := imap_close pasta_world;
     imap_logout := imap_logout pasta_world;
     py_repr := py_repr pasta_world;
     stdout_print := stdout_print pasta_world |}.

(** A computation that makes no call on the client connection. *)
Definition quiet {A} (m : M A) : Prop :=
  Forall (fun ev => is_conn ev = false) (fst m).

(** The summaries of the three messages of [inbox_world]. *)
Definition inbox_summaries : list value :=
  [VDict [("id", VBytes "1"); ("subject", VStr "Hello");
          ("sender", VStr "bob@example.com"); ("body", VStr "Hi there")];
   VDict [("id", VBytes "2"); ("subject", VStr "News");
          ("sender", VStr "news@example.com"); ("body", VStr "")];
   VDict [("id", VBytes "3"); ("subject", VStr "Report");
          ("sender", VStr "carol@example.com"); ("body", VStr "first plain")]].

(** What [request_data.get(key, default)] gives for a decoded object. *)
Definition request_get (entries : list (string * value)) (key : string)
    (default : value) : value :=
  match assoc key entries with
  | Some x => x
  | None => default
  end.

(** The account and the API key read from the process environment. *)
Definition account (w : World) : EmailAutomation :=
  EmailAutomation_init (opt_value (getenv w "EMAIL_ADDRESS"))
                       (opt_value (getenv w "EMAIL_PASSWORD")).

Definition api_key_of (w : World) : value :=
  opt_value (getenv w "SPOONACULAR_API_KEY").

(** The stronger property, which also counts a request without a
    [type] field as one of an invalid type. *)
Definition missing_or_unknown_type_is_invalid (w : World) : Prop :=
  forall data text entries,
    conn_recv w 1024 = Ok data ->
    data <> "" ->
    utf8_decode w data = Ok text ->
    json_loads w text = Ok (VDict entries) ->
    (assoc "type" entries = None
     \/ exists request_type,
          assoc "type" entries = Some request_type
          /\ request_type <> VStr "recipe"
          /\ request_type <> VStr "fetch_emails") ->
    responses (fst (handle_client_connection w)) = [JsonText invalid_request_response].

(** Exactly one response is written, and the close follows it. *)
Definition one_response_then_close (t : trace) : Prop :=
  exists p before,
    t = (before ++ [ConnSendall p; ConnClose])%list
    /\ responses before = []
    /\ closes before = 0.

(** The stronger property: every connection gets exactly one response
    before it is closed. *)
Definition every_connection_gets_one_response : Prop :=
  forall w : World, one_response_then_close (fst (handle_client_connection w)).

(** ** Further notions and example worlds *)

Definition is_imap (ev : event) : bool :=
  match ev with
  | ImapConnect _ _ | ImapLogin _ _ | ImapSelect _ | ImapSearch _
  | ImapFetch _ _ | ImapClose | ImapLogout => true
  | _ => false
  end.

Definition is_http (ev : event) : bool :=
  match ev with
  | HttpGet _ _ => true
  | _ => false
  end.

(** A computation all of whose calls satisfy [P]. *)
Definition calls_only {A} (P : event -> bool) (m : M A) : Prop :=
  Forall (fun ev => P ev = true) (fst m).

(** The [FETCH] calls of the loop, one per message id. *)
Definition fetch_calls (email_ids : list string) : trace :=
  map (fun email_id => ImapFetch email_id "(RFC822)") email_ids.

(** The calls of a complete SMTP conversation that sends [text]. *)
Definition smtp_calls (self : EmailAutomation) (recipient_email : value)
    (text : string) : trace :=
  [SmtpConnect (smtp_server self) (smtp_port self);
   SmtpStarttls;
   SmtpLogin (email_address self) (email_password self);
   SmtpSendmail (email_address self) recipient_email text;
   SmtpQuit].

(** The calls that open the IMAP session, up to the search. *)
Definition imap_opening (self : EmailAutomation) (search_criteria : string) : trace :=
  [ImapConnect (imap_server self) (imap_port self);
   ImapLogin (email_address self) (email_password self);
   ImapSelect "inbox";
   ImapSearch search_criteria].

(** The text of the [AttributeError] of line 153 on a request that is
    not an object. *)
Definition no_get_attribute (request_data : value) : string :=
  "'" ++ type_name request_data ++ "' object has no attribute 'get'".

(** The text of the [TypeError] of ['\n'.join] at item [i]. *)
Definition join_type_error (i : nat) (item : value) : string :=
  "sequence item " ++ str_of_nat i ++ ": expected str instance, "
    ++ type_name item ++ " found".

(** [w], with every write to the client answered by [answer]. *)
Definition with_sendall (w : World) (answer : payload -> result unit) : World :=
  {| conn_recv := conn_recv w;
     conn_sendall := answer;
     conn_close := conn_close w;
     utf8_decode := utf8_decode w;
     json_loads := json_loads w;
     getenv := getenv w;
     requests_get := requests_get w;
     response_json := response_json w;
     smtp_connect := smtp_connect w;
     smtp_starttls := smtp_starttls w;
     smtp_login := smtp_login w;
     mime_as_string := mime_as_string w;
     smtp_sendmail := smtp_sendmail w;
     smtp_quit := smtp_quit w;
     imap_connect := imap_connect w;
     imap_login := imap_login w;
     imap_select := imap_select w;
     imap_search := imap_search w;
     imap_fetch := imap_fetch w;
     message_from_bytes := message_from_bytes w;
     imap_close := imap_close w;
     imap_logout := imap_logout w;
     py_repr := py_repr w;
     stdout_print := stdout_print w |}.

(** The peer sends a JSON array. *)
Definition array_world : World :=
  example_world (Ok "[1]") (Ok (VList [VInt 1])) (Raise "unused") (Raise "unused") no_inbox.

(** The peer sends text that is not JSON. *)
Definition garbage_world : World :=
  example_world (Ok "hello") (Raise "Expecting value: line 1 column 1 (char 0)")
                (Raise "unused") (Raise "unused") no_inbox.

(** The recipe API answers with an ingredient whose [original] is a
    number. *)
Definition odd_api : value :=
  VDict [("results",
          VList [VDict [("extendedIngredients",
                         VList [VDict [("original", VStr "200g pasta")];
                                VDict [("original", VInt 1)]])]])].

Definition odd_api_world : World :=
  example_world (Ok "{pasta request}") (Ok pasta_request) (Ok odd_api)
                (Raise "unused") no_inbox.

(** The search matches the ids 1, 9 and 3; message 9 cannot be parsed. *)
Definition broken_inbox_world : World :=
  example_world (Ok "{type: fetch_emails}") (Ok (VDict [("type", VStr "fetch_emails")]))
                (Raise "unused") (Ok "1 9 3") example_inbox.

(** The search matches nothing. *)
Definition empty_inbox_world : World :=
  example_world (Ok "{type: fetch_emails}") (Ok (VDict [("type", VStr "fetch_emails")]))
                (Raise "unused") (Ok "") example_inbox.

(** The pasta scenario with a peer that is gone when the reply is
    written. *)
Definition broken_pipe_world : World :=
  with_sendall pasta_world (fun _ => Raise "[Errno 32] Broken pipe").

(** The IMAP server drops the session at the search. *)
Definition search_down_world : World :=
  example_world (Ok "{type: fetch_emails}") (Ok (VDict [("type", VStr "fetch_emails")]))
                (Raise "unused") (Raise "socket error: EOF") example_inbox.

(** A [fetch_emails] request that also asks for a limit and a criterion. *)
Definition eager_fetch_request : list (string * value) :=
  [("type", VStr "fetch_emails"); ("limit", VInt 100); ("search_criteria", VStr "ALL")].

(** ** What the handlers print *)

(** The texts of the four [print] calls, lines 50, 95, 136 and 214. *)
Definition smtp_error_line (e : exn) : string := "SMTP Email sending error: " ++ e.
Definition imap_error_line (e : exn) : string := "IMAP Email fetching error: " ++ e.
Definition api_error_line (e : exn) : string := "API Error: " ++ e.
Definition handler_error_line (e : exn) : string :=
  "Error handling client connection: " ++ e.

(** The catch-all clause of [handle_client_connection], lines 213-219. *)
Definition catch_all (w : World) (e : exn) : M unit :=
  bind (py_print w ("Error handling client connection: " ++ e))
       (fun _ => send_response w (VDict [("success", VBool false);
                                         ("message", VStr e)])).

(** The [except] clause of [fetch_recent_emails], lines 94-96. *)
Definition swallow_imap_error (w : World) (e : exn) : M (list value) :=
  bind (py_print w ("IMAP Email fetching error: " ++ e)) (fun _ => ret []).

(** What the catch-all clause entered with [e] writes to the client:
    the error object, unless its [print] raises. *)
Definition caught_writes (w : World) (e : exn) : list payload :=
  match stdout_print w (handler_error_line e) with
  | Ok _ => [JsonText (error_response e)]
  | Raise _ => []
  end.

(** [w], with every [print] answered by [answer]. *)
Definition with_stdout (w : World) (answer : string -> result unit) : World :=
  {| conn_recv := conn_recv w;
     conn_sendall := conn_sendall w;
     conn_close := conn_close w;
     utf8_decode := utf8_decode w;
     json_loads := json_loads w;
     getenv := getenv w;
     requests_get := requests_get w;
     response_json := response_json w;
     smtp_connect := smtp_connect w;
     smtp_starttls := smtp_starttls w;
     smtp_login := smtp_login w;
     mime_as_string := mime_as_string w;
     smtp_sendmail := smtp_sendmail w;
     smtp_quit := smtp_quit w;
     imap_connect := imap_connect w;
     imap_login := imap_login w;
     imap_select := imap_select w;
     imap_search := imap_search w;
     imap_fetch := imap_fetch w;
     message_from_bytes := message_from_bytes w;
     imap_close := imap_close w;
     imap_logout := imap_logout w;
     py_repr := py_repr w;
     stdout_print := answer |}.

(** The standard output of the server is closed. *)
Definition closed_stdout : string -> result unit :=
  fun _ => Raise "I/O operation on closed file.".

(** The SMTP login is refused, and the error cannot be printed. *)
Definition login_refused_mute_world : World :=
  with_stdout login_refused_world closed_stdout.

(** The recipe API cannot be reached, and the error cannot be printed. *)
Definition api_down_mute_world : World :=
  with_stdout api_down_world closed_stdout.

(** The stronger property: [send_email] returns a pair whatever
    happens. *)
Definition send_email_always_returns : Prop :=
  forall (w : World) (self : EmailAutomation) (recipient_email : value)
         (subject body : string),
  exists success message,
    snd (send_email w self recipient_email subject body) = Ok (success, message).

(** The stronger property: every failure of the lookup yields the empty
    list. *)
Definition lookup_failure_always_empty : Prop :=
  forall (w : World) (food_type api_key : value) (e : exn),
    api_answer w food_type api_key = Raise e ->
    snd (get_recipe_ingredients w food_type api_key) = Ok [].

(** ** Running computations *)

Lemma bind_Ok {A B} (t : trace) (a : A) (f : A -> M B) :
  bind (t, Ok a) f = ((t ++ fst (f a))%list, snd (f a)).
Proof. unfold bind. destruct (f a); reflexivity. Qed.

Lemma bind_Raise {A B} (t : trace) (e : exn) (f : A -> M B) :
  bind (t, Raise e) f = (t, Raise e).
Proof. reflexivity. Qed.

Lemma bind_lift_Ok {A B} (a : A) (f : A -> M B) : bind (lift (Ok a)) f = f a.
Proof. unfold lift, bind. destruct (f a); reflexivity. Qed.

Lemma bind_ret {A B} (a : A) (f : A -> M B) : bind (ret a) f = f a.
Proof. apply bind_lift_Ok. Qed.

Lemma bind_call_Ok {A B} (ev : event) (a : A) (f : A -> M B) :
  bind (call ev (Ok a)) f = (ev :: fst (f a), snd (f a)).
Proof. unfold call. rewrite bind_Ok. reflexivity. Qed.

Lemma bind_call_Raise {A B} (ev : event) (e : exn) (f : A -> M B) :
  bind (call ev (Raise e)) f = ([ev], Raise e).
Proof. reflexivity. Qed.

Lemma bind_lift_Raise {A B} (e : exn) (f : A -> M B) :
  bind (lift (Raise e)) f = ([], Raise e).
Proof. reflexivity. Qed.

Lemma try_except_Ok {A} (t : trace) (a : A) (h : exn -> M A) :
  try_except (t, Ok a) h = (t, Ok a).
Proof. reflexivity. Qed.

Lemma try_except_Raise {A} (t : trace) (e : exn) (h : exn -> M A) :
  try_except (t, Raise e) h = ((t ++ fst (h e))%list, snd (h e)).
Proof. unfold try_except. destruct (h e); reflexivity. Qed.

Lemma fst_try_finally {A} (body : M A) (cleanup : M unit) :
  fst (try_finally body cleanup) = (fst body ++ fst cleanup)%list.
Proof.
  destruct body as [t r], cleanup as [t' [u | e]]; reflexivity.
Qed.

Lemma result_unit (r : result unit) : r = Ok tt \/ exists e, r = Raise e.
Proof. destruct r as [[] | e]; eauto. Qed.

Create Rewrite HintDb run.
#[local] Hint Rewrite @bind_lift_Ok @bind_lift_Raise @bind_ret @bind_call_Ok @bind_call_Raise
  @bind_Raise @try_except_Ok @try_except_Raise : run.

Ltac run := autorewrite with run; cbn [fst snd app].
Ltac runs := repeat (progress run).

(** ** [_get_email_body] *)

Lemma body_loop_first_match (w : World) (parts : list message) (body : string) :
  body_loop w parts body =
  match find is_text_plain parts with
  | Some part => py_decode w (get_payload_decoded part)
  | None => Ok body
  end.
Proof.
  induction parts as [| part rest IH]; cbn [body_loop find]; [reflexivity |].
  unfold is_text_plain at 1.
  destruct (get_content_type part =? "text/plain"); [reflexivity | exact IH].
Qed.

Lemma find_none_of_all_other (parts : list message) :
  (forall part, In part parts -> get_content_type part <> "text/plain") ->
  find is_text_plain parts = None.
Proof.
  intros Hall. induction parts as [| part rest IH]; cbn [find]; [reflexivity |].
  unfold is_text_plain at 1.
  destruct (String.eqb_spec (get_content_type part) "text/plain") as [Heq | _].
  - exfalso. apply (Hall part); [left; reflexivity | exact Heq].
  - apply IH. intros q Hq. apply Hall. right. exact Hq.
Qed.

(** C8.  The extracted body of a message.  A message that is not
    multipart gives its single payload, decoded.  A multipart message
    gives the decoded payload of the first part, in [walk()] order,
    whose content type is [text/plain], whatever comes after it; the
    empty string when there is no such part; and the [AttributeError]
    of [None.decode()] when that first part is itself a container. *)
Theorem email_body_first_text_plain (w : World) (m : message) :
  _get_email_body w m =
  match m with
  | Single _ _ _ decoded => utf8_decode w decoded
  | Multipart _ _ _ _ =>
      match find is_text_plain (walk m) with
      | Some (Single _ _ _ decoded) => utf8_decode w decoded
      | Some (Multipart _ _ _ _) =>
          Raise "'NoneType' object has no attribute 'decode'"
      | None => Ok ""
      end
  end.
Proof.
  destruct m as [s f c decoded | s f c parts].
  - reflexivity.
  - unfold _get_email_body. cbn [is_multipart].
    rewrite body_loop_first_match.
    destruct (find is_text_plain (walk (Multipart s f c parts))) as [[? ? ? ? | ? ? ? ?] |];
      reflexivity.
Qed.

(** First match, not best match: the nested [text/plain] alternative
    wins over the later top-level one. *)
Example mixed_message_body :
  _get_email_body inbox_world mixed_message = Ok "first plain".
Proof. reflexivity. Qed.

(** C10.  A multipart message none of whose parts (in [walk()] order,
    the container included) has content type [text/plain] has the empty
    string as its body, and the loop of [fetch_recent_emails] still
    produces its summary, with ["body": ""]. *)
Theorem multipart_without_text_plain_body_empty
    (w : World) (email_id raw : string) (subject sender : value)
    (content_type : string) (parts : list message) :
  (forall part, In part (walk (Multipart subject sender content_type parts)) ->
                get_content_type part <> "text/plain") ->
  imap_fetch w email_id "(RFC822)" = Ok raw ->
  message_from_bytes w raw = Ok (Multipart subject sender content_type parts) ->
  _get_email_body w (Multipart subject sender content_type parts) = Ok ""
  /\ fetch_one w email_id =
       ([ImapFetch email_id "(RFC822)"],
        Ok (VDict [("id", VBytes email_id);
                   ("subject", subject);
                   ("sender", sender);
                   ("body", VStr "")])).
Proof.
  intros Hnone Hfetch Hparse.
  assert (Hbody : _get_email_body w (Multipart subject sender content_type parts) = Ok "").
  { unfold _get_email_body. cbn [is_multipart].
    rewrite body_loop_first_match.
    rewrite (find_none_of_all_other _ Hnone). reflexivity. }
  split; [exact Hbody |].
  unfold fetch_one. rewrite Hfetch. run. rewrite Hparse. run.
  rewrite Hbody. run. reflexivity.
Qed.

Lemma multipart_without_text_plain_witness :
  _get_email_body inbox_world html_only_message = Ok ""
  /\ fetch_one inbox_world "2" =
       ([ImapFetch "2" "(RFC822)"],
        Ok (VDict [("id", VBytes "2");
                   ("subject", VStr "News");
                   ("sender", VStr "news@example.com");
                   ("body", VStr "")])).
Proof.
  apply (multipart_without_text_plain_body_empty inbox_world "2" "2").
  - intros part Hin. cbn in Hin.
    destruct Hin as [<- | [<- | []]]; cbn; discriminate.
  - reflexivity.
  - reflexivity.
Defined.

(** ** [send_email] *)

(** A [print] in front of the rest of a clause. *)
Lemma bind_print {B} (w : World) (text : string) (f : unit -> M B) :
  bind (py_print w text) f =
  match stdout_print w text with
  | Ok _ => f tt
  | Raise e => ([], Raise e)
  end.
Proof.
  unfold py_print, lift, bind.
  destruct (stdout_print w text) as [[] | e]; [destruct (f tt) |]; reflexivity.
Qed.

(** An [except] clause that prints and then returns [a]. *)
Lemma caught_print_ret {A} (w : World) (t : trace) (e : exn) (text : exn -> string) (a : exn -> A) :
  try_except (t, Raise e) (fun e0 => bind (py_print w (text e0)) (fun _ => ret (a e0))) =
  (t, match stdout_print w (text e) with
      | Ok _ => Ok (a e)
      | Raise e' => Raise e'
      end).
Proof.
  rewrite try_except_Raise, bind_print.
  destruct (stdout_print w (text e)) as [[] | e']; cbn; rewrite app_nil_r; reflexivity.
Qed.

(** The calls and the outcome of the [try] block of [send_email]. *)
Lemma send_email_run (w : World) (self : EmailAutomation)
    (recipient_email : value) (subject body : string) :
  exists t,
    Forall (fun ev => is_smtp ev = true) t
    /\ send_email w self recipient_email subject body =
       (t, match smtp_conversation w self recipient_email subject body with
           | Ok _ => Ok (true, "Email sent successfully")
           | Raise e =>
               match stdout_print w (smtp_error_line e) with
               | Ok _ => Ok (false, e)
               | Raise e' => Raise e'
               end
           end)
    /\ (smtp_conversation w self recipient_email subject body = Ok tt ->
        exists text,
          mime_as_string w (outgoing self recipient_email subject body) = Ok text
          /\ t = [SmtpConnect (smtp_server self) (smtp_port self);
                  SmtpStarttls;
                  SmtpLogin (email_address self) (email_password self);
                  SmtpSendmail (email_address self) recipient_email text;
                  SmtpQuit]).
Proof.
  unfold send_email, smtp_conversation, outgoing, smtp_error_line.
  set (handler := fun e : exn => bind _ _).
  assert (Hcaught : forall t e,
            try_except (t, Raise e) handler =
            (t, match stdout_print w ("SMTP Email sending error: " ++ e) with
                | Ok _ => Ok (false, e)
                | Raise e' => Raise e'
                end)).
  { intros t e. unfold handler.
    apply (caught_print_ret w t e (fun e0 => "SMTP Email sending error: " ++ e0)
                            (fun e0 => (false, e0))). }
  clearbody handler.
  destruct (smtp_connect w (smtp_server self) (smtp_port self)) as [[] | e].
  2:{ cbn [call lift ret bind fst snd app rbind]. rewrite Hcaught.
      eexists. split; [| split; [reflexivity | discriminate]]. repeat constructor. }
  destruct (smtp_starttls w) as [[] | e].
  2:{ cbn [call lift ret bind fst snd app rbind]. rewrite Hcaught.
      eexists. split; [| split; [reflexivity | discriminate]]. repeat constructor. }
  destruct (smtp_login w (email_address self) (email_password self)) as [[] | e].
  2:{ cbn [call lift ret bind fst snd app rbind]. rewrite Hcaught.
      eexists. split; [| split; [reflexivity | discriminate]]. repeat constructor. }
  cbn [call lift ret bind fst snd app rbind].
  destruct (mime_as_string w _) as [text | e].
  2:{ cbn [call lift ret bind fst snd app rbind]. rewrite Hcaught.
      eexists. split; [| split; [reflexivity | discriminate]]. repeat constructor. }
  cbn [call lift ret bind fst snd app rbind].
  destruct (smtp_sendmail w (email_address self) recipient_email text) as [[] | e].
  2:{ cbn [call lift ret bind fst snd app rbind]. rewrite Hcaught.
      eexists. split; [| split; [reflexivity | discriminate]]. repeat constructor. }
  destruct (smtp_quit w) as [[] | e].
  - cbn [call lift ret bind fst snd app rbind]. rewrite try_except_Ok.
    eexists. split; [| split; [reflexivity |]].
    + repeat constructor.
    + intros _. exists text. split; reflexivity.
  - cbn [call lift ret bind fst snd app rbind]. rewrite Hcaught.
    eexists. split; [| split; [reflexivity | discriminate]]. repeat constructor.
Qed.

Lemma send_email_outcome (w : World) (self : EmailAutomation)
    (recipient_email : value) (subject body : string) :
  snd (send_email w self recipient_email subject body) =
  match smtp_conversation w self recipient_email subject body with
  | Ok _ => Ok (true, "Email sent successfully")
  | Raise e =>
      match stdout_print w (smtp_error_line e) with
      | Ok _ => Ok (false, e)
      | Raise e' => Raise e'
      end
  end.
Proof.
  destruct (send_email_run w self recipient_email subject body) as (t & _ & -> & _).
  reflexivity.
Qed.

(** Every call [send_email] makes is an SMTP call. *)
Lemma send_email_trace_smtp (w : World) (self : EmailAutomation)
    (recipient_email : value) (subject body : string) :
  Forall (fun ev => is_smtp ev = true)
         (fst (send_email w self recipient_email subject body)).
Proof.
  destruct (send_email_run w self recipient_email subject body) as (t & Ht & -> & _).
  exact Ht.
Qed.

(** A successful [send_email] went through the whole conversation. *)
Lemma send_email_success_inv (w : World) (self : EmailAutomation)
    (recipient_email : value) (subject body message : string) :
  snd (send_email w self recipient_email subject body) = Ok (true, message) ->
  message = "Email sent successfully"
  /\ exists text,
       mime_as_string w (outgoing self recipient_email subject body) = Ok text
       /\ fst (send_email w self recipient_email subject body) =
            [SmtpConnect (smtp_server self) (smtp_port self);
             SmtpStarttls;
             SmtpLogin (email_address self) (email_password self);
             SmtpSendmail (email_address self) recipient_email text;
             SmtpQuit].
Proof.
  destruct (send_email_run w self recipient_email subject body) as (t & _ & -> & Hfull).
  cbn [fst snd].
  destruct (smtp_conversation w self recipient_email subject body) as [[] | e].
  - intros [= <-]. split; [reflexivity |].
    destruct (Hfull eq_refl) as (text & Hmime & ->). eauto.
  - destruct (stdout_print w (smtp_error_line e)); discriminate.
Qed.

(** C7, as amended.  When the whole SMTP conversation succeeds,
    [send_email] returns [(True, "Email sent successfully")].  When a
    step fails with an exception [e], the exception is caught and its
    text is printed: if that [print] succeeds, [send_email] returns
    [(False, str(e))]; if the [print] raises, its exception reaches the
    caller.  No other exception ever reaches the caller. *)
Theorem send_email_returns_unless_print_fails (w : World) (self : EmailAutomation)
    (recipient_email : value) (subject body : string) :
  (smtp_conversation w self recipient_email subject body = Ok tt ->
   snd (send_email w self recipient_email subject body)
   = Ok (true, "Email sent successfully"))
  /\ (forall e,
      smtp_conversation w self recipient_email subject body = Raise e ->
      stdout_print w (smtp_error_line e) = Ok tt ->
      snd (send_email w self recipient_email subject body) = Ok (false, e))
  /\ (forall e e',
      smtp_conversation w self recipient_email subject body = Raise e ->
      stdout_print w (smtp_error_line e) = Raise e' ->
      snd (send_email w self recipient_email subject body) = Raise e')
  /\ (forall e',
      snd (send_email w self recipient_email subject body) = Raise e' ->
      exists e,
        smtp_conversation w self recipient_email subject body = Raise e
        /\ stdout_print w (smtp_error_line e) = Raise e').
Proof.
  rewrite send_email_outcome.
  destruct (smtp_conversation w self recipient_email subject body) as [[] | e0].
  - split; [reflexivity |]. split; [discriminate |]. split; discriminate.
  - split; [discriminate |]. split; [| split].
    + intros e [= <-] Hprint. rewrite Hprint. reflexivity.
    + intros e e' [= <-] Hprint. rewrite Hprint. reflexivity.
    + intros e' Hraise. exists e0. split; [reflexivity |].
      destruct (stdout_print w (smtp_error_line e0)) as [[] | e1]; congruence.
Qed.

Lemma send_email_returns_unless_print_fails_witness :
  snd (send_email pasta_world (EmailAutomation_init (VStr "me@x.org") (VStr "pw"))
                  (VStr "a@b.com") "Subject" "Body")
  = Ok (true, "Email sent successfully")
  /\ snd (send_email login_refused_world
                     (EmailAutomation_init (VStr "me@x.org") (VStr "pw"))
                     (VStr "a@b.com") "Subject" "Body")
     = Ok (false, "(535, b'5.7.8 Username and Password not accepted')")
  /\ snd (send_email login_refused_mute_world
                     (EmailAutomation_init (VStr "me@x.org") (VStr "pw"))
                     (VStr "a@b.com") "Subject" "Body")
     = Raise "I/O operation on closed file.".
Proof.
  split; [| split].
  - apply (proj1 (send_email_returns_unless_print_fails pasta_world _ _ _ _)).
    reflexivity.
  - apply (proj1 (proj2 (send_email_returns_unless_print_fails login_refused_world _ _ _ _)));
      reflexivity.
  - apply (proj1 (proj2 (proj2 (send_email_returns_unless_print_fails login_refused_mute_world _ _ _ _)))
             "(535, b'5.7.8 Username and Password not accepted')");
      reflexivity.
Defined.

(** When the login is refused and standard output is closed, the
    [print] of line 50 raises inside the [except] clause and
    [send_email] raises to its caller. *)
Lemma send_email_can_raise :
  snd (send_email login_refused_mute_world
                  (EmailAutomation_init (VStr "me@x.org") (VStr "pw"))
                  (VStr "a@b.com") "Subject" "Body")
  = Raise "I/O operation on closed file."
  /\ ~ send_email_always_returns.
Proof.
  split; [reflexivity |].
  intros Hclaim.
  destruct (Hclaim login_refused_mute_world
                   (EmailAutomation_init (VStr "me@x.org") (VStr "pw"))
                   (VStr "a@b.com") "Subject" "Body") as (success & message & H).
  discriminate H.
Qed.

(** ** [get_recipe_ingredients] *)

Lemma get_recipe_ingredients_run (w : World) (food_type api_key : value) :
  get_recipe_ingredients w food_type api_key =
  ([HttpGet recipe_search_url (recipe_search_params food_type api_key)],
   match api_answer w food_type api_key with
   | Ok ingredients => Ok ingredients
   | Raise e =>
       match stdout_print w (api_error_line e) with
       | Ok _ => Ok []
       | Raise e' => Raise e'
       end
   end).
Proof.
  unfold get_recipe_ingredients, api_answer, ingredients_of, api_error_line.
  cbn zeta.
  set (handler := fun e : exn => bind _ _).
  assert (Hcaught : forall t e,
            try_except (t, Raise e) handler =
            (t, match stdout_print w ("API Error: " ++ e) with
                | Ok _ => Ok []
                | Raise e' => Raise e'
                end)).
  { intros t e. unfold handler.
    apply (caught_print_ret (A := list value) w t e
             (fun e0 => "API Error: " ++ e0) (fun _ => [])). }
  clearbody handler.
  destruct (requests_get w _ _) as [response | e];
    [| cbn [call lift ret bind fst snd app rbind]; apply Hcaught].
  cbn [call lift ret bind fst snd app rbind].
  destruct (response_json w response) as [data | e];
    [| cbn [call lift ret bind fst snd app rbind]; apply Hcaught].
  cbn [call lift ret bind fst snd app rbind].
  destruct (getitem_key data "results") as [results | e];
    [| cbn [call lift ret bind fst snd app rbind]; apply Hcaught].
  cbn [call lift ret bind fst snd app rbind].
  destruct (truthy results); [| reflexivity].
  destruct (getitem_0 results) as [first | e];
    [| cbn [call lift ret bind fst snd app rbind]; apply Hcaught].
  cbn [call lift ret bind fst snd app rbind].
  destruct (getitem_key first "extendedIngredients") as [extended | e];
    [| cbn [call lift ret bind fst snd app rbind]; apply Hcaught].
  cbn [call lift ret bind fst snd app rbind].
  destruct (py_iter extended) as [items | e];
    [| cbn [call lift ret bind fst snd app rbind]; apply Hcaught].
  cbn [call lift ret bind fst snd app rbind].
  destruct (rmap _ items) as [texts | e]; [reflexivity | apply Hcaught].
Qed.

(** The lookup makes its one HTTP request whatever happens. *)
Lemma get_recipe_ingredients_eta (w : World) (food_type api_key : value) :
  get_recipe_ingredients w food_type api_key =
  ([HttpGet recipe_search_url (recipe_search_params food_type api_key)],
   snd (get_recipe_ingredients w food_type api_key)).
Proof. rewrite get_recipe_ingredients_run. reflexivity. Qed.

Lemma rmap_Forall2 {A B} (f : A -> result B) (l : list A) (l' : list B) :
  rmap f l = Ok l' <-> Forall2 (fun a b => f a = Ok b) l l'.
Proof.
  revert l'. induction l as [| a rest IH]; intros l'; cbn [rmap].
  - split.
    + intros H. injection H as <-. constructor.
    + intros H. inversion H. reflexivity.
  - split.
    + destruct (f a) as [b | e] eqn:Hfa; cbn [rbind]; [| discriminate].
      destruct (rmap f rest) as [bs | e] eqn:Hrest; cbn [rbind]; [| discriminate].
      intros H. injection H as <-. constructor; [exact Hfa |]. apply IH. reflexivity.
    + intros H. inversion H as [| a' b rest' bs Hfa Hrest]; subst.
      rewrite Hfa. cbn [rbind].
      apply IH in Hrest. rewrite Hrest. reflexivity.
Qed.

(** C6, as amended.  Recipe Lookup always makes its one HTTP request.
    When the parsed response has a non-empty [results] array, it
    returns the [original] of every entry of the first result's
    [extendedIngredients], in order.  When [results] is empty it returns
    the empty list.  When the request or the parsing raises [e], the
    exception is caught and its text is printed: if that [print]
    succeeds the result is the empty list too, so that an empty list
    does not tell "no recipe" from "the API failed"; if the [print]
    raises, its exception reaches the caller.  A non-empty list can only
    come from a response that was read without any exception. *)
Theorem recipe_lookup_outcomes (w : World) (food_type api_key : value) :
  fst (get_recipe_ingredients w food_type api_key)
    = [HttpGet recipe_search_url (recipe_search_params food_type api_key)]
  /\ (forall response entries first rest items texts,
        requests_get w recipe_search_url (recipe_search_params food_type api_key)
          = Ok response ->
        response_json w response = Ok (VDict entries) ->
        assoc "results" entries = Some (VList (first :: rest)) ->
        getitem_key first "extendedIngredients" = Ok (VList items) ->
        Forall2 (fun item text => getitem_key item "original" = Ok text) items texts ->
        snd (get_recipe_ingredients w food_type api_key) = Ok texts)
  /\ (forall response entries,
        requests_get w recipe_search_url (recipe_search_params food_type api_key)
          = Ok response ->
        response_json w response = Ok (VDict entries) ->
        assoc "results" entries = Some (VList []) ->
        snd (get_recipe_ingredients w food_type api_key) = Ok [])
  /\ (forall e,
        api_answer w food_type api_key = Raise e ->
        stdout_print w (api_error_line e) = Ok tt ->
        snd (get_recipe_ingredients w food_type api_key) = Ok [])
  /\ (forall e e',
        api_answer w food_type api_key = Raise e ->
        stdout_print w (api_error_line e) = Raise e' ->
        snd (get_recipe_ingredients w food_type api_key) = Raise e')
  /\ (forall ingredients,
        snd (get_recipe_ingredients w food_type api_key) = Ok ingredients ->
        ingredients <> [] ->
        api_answer w food_type api_key = Ok ingredients).
Proof.
  rewrite get_recipe_ingredients_run. cbn [fst snd].
  split; [reflexivity |].
  split.
  { intros response entries first rest items texts Hget Hjson Hres Hext Horig.
    unfold api_answer. rewrite Hget. cbn [rbind]. rewrite Hjson. cbn [rbind].
    unfold ingredients_of. cbn [getitem_key]. rewrite Hres. cbn [rbind truthy getitem_0].
    rewrite Hext. cbn [rbind py_iter].
    apply rmap_Forall2 in Horig. rewrite Horig. reflexivity. }
  split.
  { intros response entries Hget Hjson Hres.
    unfold api_answer. rewrite Hget. cbn [rbind]. rewrite Hjson. cbn [rbind].
    unfold ingredients_of. cbn [getitem_key]. rewrite Hres. reflexivity. }
  split.
  { intros e He Hprint. rewrite He, Hprint. reflexivity. }
  split.
  { intros e e' He Hprint. rewrite He, Hprint. reflexivity. }
  intros ingredients Hret Hne.
  destruct (api_answer w food_type api_key) as [l | e].
  - congruence.
  - exfalso. apply Hne.
    destruct (stdout_print w (api_error_line e)) as [[] | e']; congruence.
Qed.

Lemma recipe_lookup_outcomes_witness :
  snd (get_recipe_ingredients pasta_world (VStr "pasta") (VStr "key"))
    = Ok [VStr "200g pasta"; VStr "1 onion"]
  /\ snd (get_recipe_ingredients untyped_world VNone (VStr "key")) = Ok []
  /\ snd (get_recipe_ingredients api_down_world (VStr "pasta") (VStr "key")) = Ok []
  /\ snd (get_recipe_ingredients api_down_mute_world (VStr "pasta") (VStr "key"))
     = Raise "I/O operation on closed file."
  /\ api_answer pasta_world (VStr "pasta") (VStr "key")
       = Ok [VStr "200g pasta"; VStr "1 onion"].
Proof.
  assert (Hpasta : snd (get_recipe_ingredients pasta_world (VStr "pasta") (VStr "key"))
                   = Ok [VStr "200g pasta"; VStr "1 onion"]).
  { apply (proj1 (proj2 (recipe_lookup_outcomes pasta_world (VStr "pasta") (VStr "key")))
             "body" _ _ [] _ _ eq_refl eq_refl eq_refl eq_refl).
    repeat constructor. }
  split; [exact Hpasta |].
  split.
  { apply (proj1 (proj2 (proj2 (recipe_lookup_outcomes untyped_world VNone (VStr "key"))))
             "body" _ eq_refl eq_refl eq_refl). }
  split.
  { apply (proj1 (proj2 (proj2 (proj2
             (recipe_lookup_outcomes api_down_world (VStr "pasta") (VStr "key")))))
             "Max retries exceeded");
      reflexivity. }
  split.
  { apply (proj1 (proj2 (proj2 (proj2 (proj2
             (recipe_lookup_outcomes api_down_mute_world (VStr "pasta") (VStr "key"))))))
             "Max retries exceeded");
      reflexivity. }
  apply (proj2 (proj2 (proj2 (proj2 (proj2
           (recipe_lookup_outcomes pasta_world (VStr "pasta") (VStr "key"))))))).
  - exact Hpasta.
  - discriminate.
Defined.

(** When the API cannot be reached and standard output is closed, the
    [print] of line 136 raises inside the [except] clause and the
    lookup raises instead of returning the empty list. *)
Lemma lookup_can_raise :
  api_answer api_down_mute_world (VStr "pasta") (VStr "key") = Raise "Max retries exceeded"
  /\ snd (get_recipe_ingredients api_down_mute_world (VStr "pasta") (VStr "key"))
     = Raise "I/O operation on closed file."
  /\ ~ lookup_failure_always_empty.
Proof.
  split; [reflexivity |]. split; [reflexivity |].
  intros Hclaim.
  specialize (Hclaim api_down_mute_world (VStr "pasta") (VStr "key")
                     "Max retries exceeded" eq_refl).
  discriminate Hclaim.
Qed.

(** ** Calls that do not touch the client connection *)

Lemma quiet_ret {A} (a : A) : quiet (ret a).
Proof. constructor. Qed.

Lemma quiet_lift {A} (r : result A) : quiet (lift r).
Proof. constructor. Qed.

Lemma quiet_call {A} (ev : event) (r : result A) :
  is_conn ev = false -> quiet (call ev r).
Proof. intros H. repeat constructor. exact H. Qed.

Lemma quiet_bind {A B} (m : M A) (f : A -> M B) :
  quiet m -> (forall a, quiet (f a)) -> quiet (bind m f).
Proof.
  unfold quiet. intros Hm Hf. destruct m as [t [a | e]].
  - rewrite bind_Ok. cbn [fst] in *. apply Forall_app. split; [exact Hm | apply Hf].
  - exact Hm.
Qed.

Lemma quiet_try_except {A} (m : M A) (h : exn -> M A) :
  quiet m -> (forall e, quiet (h e)) -> quiet (try_except m h).
Proof.
  unfold quiet. intros Hm Hh. destruct m as [t [a | e]].
  - exact Hm.
  - rewrite try_except_Raise. cbn [fst] in *. apply Forall_app. split; [exact Hm | apply Hh].
Qed.

Create HintDb quiet.
#[local] Hint Resolve quiet_ret quiet_lift quiet_try_except : quiet.
#[local] Hint Extern 1 (quiet (call _ _)) => (apply quiet_call; reflexivity) : quiet.
#[local] Hint Extern 2 (quiet (bind _ _)) => (apply quiet_bind; [| intro]) : quiet.

Lemma quiet_responses (t : trace) :
  Forall (fun ev => is_conn ev = false) t -> responses t = [] /\ closes t = 0.
Proof.
  induction 1 as [| ev rest Hev _ [IHr IHc]]; [split; reflexivity |].
  destruct ev; cbn in Hev; try discriminate; cbn [responses closes]; split; assumption.
Qed.

Lemma responses_app (t t' : trace) :
  responses (t ++ t')%list = (responses t ++ responses t')%list.
Proof.
  induction t as [| ev rest IH]; [reflexivity |].
  destruct ev; cbn [responses app]; rewrite IH; reflexivity.
Qed.

Lemma closes_app (t t' : trace) : closes (t ++ t')%list = closes t + closes t'.
Proof.
  induction t as [| ev rest IH]; [reflexivity |].
  destruct ev; cbn [closes app]; rewrite IH; reflexivity.
Qed.

(** ** [fetch_recent_emails] *)

Lemma slice_from_0 {A} (l : list A) : slice_from (- 0) l = l.
Proof.
  unfold slice_from. cbn [Z.opp Z.ltb Z.compare].
  replace (Z.min 0 (Z.of_nat (length l))) with 0%Z by lia.
  reflexivity.
Qed.

Lemma slice_last_length {A} (limit : Z) (l : list A) :
  (0 < limit)%Z ->
  length (slice_from (- limit) l) = Nat.min (Z.to_nat limit) (length l).
Proof.
  intros Hpos. unfold slice_from.
  destruct (Z.ltb_spec (- limit) 0) as [_ | Hge]; [| lia].
  rewrite length_skipn. lia.
Qed.

Lemma fetch_one_trace (w : World) (email_id : string) :
  fst (fetch_one w email_id) = [ImapFetch email_id "(RFC822)"].
Proof.
  unfold fetch_one.
  destruct (imap_fetch w email_id "(RFC822)") as [raw | e]; [| reflexivity].
  run.
  destruct (message_from_bytes w raw) as [m | e]; [| reflexivity].
  run.
  destruct (_get_email_body w m) as [body | e]; reflexivity.
Qed.

(** A summary carries the message id as the [bytes] object the search
    returned. *)
Lemma fetch_one_summary (w : World) (email_id : string) (summary : value) :
  snd (fetch_one w email_id) = Ok summary ->
  exists subject sender body,
    summary = VDict [("id", VBytes email_id);
                     ("subject", subject);
                     ("sender", sender);
                     ("body", VStr body)].
Proof.
  unfold fetch_one.
  destruct (imap_fetch w email_id "(RFC822)") as [raw | e]; [| discriminate].
  run.
  destruct (message_from_bytes w raw) as [m | e]; [| discriminate].
  run.
  destruct (_get_email_body w m) as [body | e]; [| discriminate].
  run. cbn. intros H. injection H as <-. eauto.
Qed.

(** The loop appends to [emails] the summary of each id in turn, and
    stops at the first exception. *)
Lemma fetch_loop_outcome (w : World) (email_ids : list string) (emails : list value) :
  snd (fetch_loop w email_ids emails) =
  rbind (rmap (fun email_id => snd (fetch_one w email_id)) email_ids)
        (fun summaries => Ok (emails ++ summaries)%list).
Proof.
  revert emails. induction email_ids as [| email_id rest IH]; intros emails.
  - cbn. rewrite app_nil_r. reflexivity.
  - cbn [fetch_loop rmap].
    destruct (fetch_one w email_id) as [t [summary | e]]; [| reflexivity].
    rewrite bind_Ok. cbn [fst snd rbind]. rewrite IH.
    destruct (rmap _ rest) as [summaries | e]; [| reflexivity].
    cbn [rbind]. rewrite <- app_assoc. reflexivity.
Qed.

Lemma quiet_fetch_loop (w : World) (email_ids : list string) (emails : list value) :
  quiet (fetch_loop w email_ids emails).
Proof.
  revert emails. induction email_ids as [| email_id rest IH]; intros emails.
  - apply quiet_ret.
  - cbn [fetch_loop]. apply quiet_bind; [| intros summary; apply IH].
    unfold quiet. rewrite fetch_one_trace. repeat constructor.
Qed.

Lemma quiet_fetch_recent_emails (w : World) (self : EmailAutomation)
    (search_criteria : string) (limit : Z) :
  quiet (fetch_recent_emails w self search_criteria limit).
Proof.
  unfold fetch_recent_emails.
  apply quiet_try_except;
    [| intros e; apply quiet_bind; [apply quiet_lift | intros; apply quiet_ret]].
  repeat (apply quiet_bind; [auto using quiet_fetch_loop with quiet | intro]).
  auto with quiet.
Qed.

(** When the session goes through, the list returned holds the
    summaries of the selected ids, one for one. *)
Lemma fetch_recent_emails_success (w : World) (self : EmailAutomation)
    (search_criteria search_data_0 : string) (limit : Z) (emails : list value) :
  imap_connect w (imap_server self) (imap_port self) = Ok tt ->
  imap_login w (email_address self) (email_password self) = Ok tt ->
  imap_select w "inbox" = Ok tt ->
  imap_search w search_criteria = Ok search_data_0 ->
  Forall2 (fun email_id summary => snd (fetch_one w email_id) = Ok summary)
          (slice_from (- limit) (bytes_split search_data_0)) emails ->
  imap_close w = Ok tt ->
  imap_logout w = Ok tt ->
  snd (fetch_recent_emails w self search_criteria limit) = Ok emails.
Proof.
  intros Hconnect Hlogin Hselect Hsearch Hall Hclose Hlogout.
  unfold fetch_recent_emails.
  rewrite Hconnect, Hlogin, Hselect, Hsearch, Hclose, Hlogout. run.
  pose proof (fetch_loop_outcome w (slice_from (- limit) (bytes_split search_data_0)) [])
    as Hloop.
  apply rmap_Forall2 in Hall. rewrite Hall in Hloop. cbn [rbind app] in Hloop.
  destruct (fetch_loop w _ []) as [t r]. cbn [snd] in Hloop. subst r.
  rewrite bind_Ok. cbn. reflexivity.
Qed.

(** C9.  With [limit = 0] the slice [email_ids[-0:]] is the whole list:
    when the session goes through and the search matched at least one
    message, [fetch_recent_emails] returns the summary of every matching
    message, not an empty list. *)
Theorem fetch_limit_zero_returns_all (w : World) (self : EmailAutomation)
    (search_criteria search_data_0 : string) (emails : list value) :
  imap_connect w (imap_server self) (imap_port self) = Ok tt ->
  imap_login w (email_address self) (email_password self) = Ok tt ->
  imap_select w "inbox" = Ok tt ->
  imap_search w search_criteria = Ok search_data_0 ->
  bytes_split search_data_0 <> [] ->
  Forall2 (fun email_id summary => snd (fetch_one w email_id) = Ok summary)
          (bytes_split search_data_0) emails ->
  imap_close w = Ok tt ->
  imap_logout w = Ok tt ->
  snd (fetch_recent_emails w self search_criteria 0) = Ok emails
  /\ length emails = length (bytes_split search_data_0)
  /\ emails <> [].
Proof.
  intros Hconnect Hlogin Hselect Hsearch Hne Hall Hclose Hlogout.
  split; [| split].
  - apply (fetch_recent_emails_success w self search_criteria search_data_0); auto.
    rewrite slice_from_0. exact Hall.
  - symmetry. apply (Forall2_length Hall).
  - intros ->. inversion Hall as [Hnil |]. apply Hne. symmetry. exact Hnil.
Qed.

Lemma fetch_limit_zero_witness :
  snd (fetch_recent_emails inbox_world (EmailAutomation_init VNone VNone) "UNSEEN" 0)
    = Ok inbox_summaries
  /\ length inbox_summaries = length (bytes_split "1 2 3")
  /\ inbox_summaries <> [].
Proof.
  apply (fetch_limit_zero_returns_all inbox_world (EmailAutomation_init VNone VNone)
           "UNSEEN" "1 2 3" inbox_summaries);
    try reflexivity.
  - discriminate.
  - repeat constructor.
Defined.

(** With a positive limit the list has [min(limit, matches)] entries. *)
Lemma fetch_positive_limit_count (w : World) (self : EmailAutomation)
    (search_criteria search_data_0 : string) (limit : Z) (emails : list value) :
  (0 < limit)%Z ->
  imap_connect w (imap_server self) (imap_port self) = Ok tt ->
  imap_login w (email_address self) (email_password self) = Ok tt ->
  imap_select w "inbox" = Ok tt ->
  imap_search w search_criteria = Ok search_data_0 ->
  Forall2 (fun email_id summary => snd (fetch_one w email_id) = Ok summary)
          (slice_from (- limit) (bytes_split search_data_0)) emails ->
  imap_close w = Ok tt ->
  imap_logout w = Ok tt ->
  snd (fetch_recent_emails w self search_criteria limit) = Ok emails
  /\ length emails = Nat.min (Z.to_nat limit) (length (bytes_split search_data_0)).
Proof.
  intros Hpos Hconnect Hlogin Hselect Hsearch Hall Hclose Hlogout.
  split.
  - apply (fetch_recent_emails_success w self search_criteria search_data_0); auto.
  - rewrite <- (Forall2_length Hall). apply slice_last_length. exact Hpos.
Qed.

(** Whatever [fetch_recent_emails] returns, each entry is a summary
    whose [id] is a [bytes] object. *)
Ltac swallowed :=
  cbn; destruct (stdout_print _ _) as [[] | ?]; cbn;
  [intros [= <-]; constructor | discriminate].

Lemma fetch_recent_emails_summaries (w : World) (self : EmailAutomation)
    (search_criteria : string) (limit : Z) (emails : list value) :
  snd (fetch_recent_emails w self search_criteria limit) = Ok emails ->
  Forall (fun summary => exists email_id rest,
            summary = VDict (("id", VBytes email_id) :: rest)) emails.
Proof.
  unfold fetch_recent_emails.
  destruct (imap_connect w _ _) as [[] | e]; [| swallowed].
  destruct (imap_login w _ _) as [[] | e]; [| swallowed].
  destruct (imap_select w _) as [[] | e]; [| swallowed].
  destruct (imap_search w _) as [data | e]; [| swallowed].
  run.
  pose proof (fetch_loop_outcome w (slice_from (- limit) (bytes_split data)) []) as Hloop.
  destruct (fetch_loop w _ []) as [t [found | e]]; [| swallowed].
  rewrite bind_Ok. cbn [fst snd] in *.
  destruct (imap_close w) as [[] | e]; [| swallowed].
  destruct (imap_logout w) as [[] | e]; [| swallowed].
  cbn. intros [= <-].
  destruct (rmap _ _) as [summaries | e] eqn:Hmap; [| discriminate].
  cbn in Hloop. injection Hloop as ->.
  apply rmap_Forall2 in Hmap.
  induction Hmap as [| email_id summary ids rest Hone _ IH]; constructor; [| exact IH].
  destruct (fetch_one_summary _ _ _ Hone) as (subject & sender & body & ->). eauto.
Qed.

(** So a response that lists at least one email cannot be encoded. *)
Lemma emails_response_not_serializable (w : World) (self : EmailAutomation)
    (search_criteria : string) (limit : Z) (emails : list value) :
  snd (fetch_recent_emails w self search_criteria limit) = Ok emails ->
  emails <> [] ->
  json_dumps (emails_response emails)
  = Raise "Object of type bytes is not JSON serializable".
Proof.
  intros Hret Hne. apply fetch_recent_emails_summaries in Hret.
  destruct Hret as [| summary rest (email_id & fields & ->) _]; [congruence |].
  reflexivity.
Qed.

(** ** The dispatcher *)

Lemma quiet_get_recipe_ingredients (w : World) (food_type api_key : value) :
  quiet (get_recipe_ingredients w food_type api_key).
Proof.
  unfold quiet. rewrite get_recipe_ingredients_run. repeat constructor.
Qed.

Lemma quiet_send_email (w : World) (self : EmailAutomation) (recipient_email : value)
    (subject body : string) :
  quiet (send_email w self recipient_email subject body).
Proof.
  unfold quiet.
  eapply Forall_impl; [| apply send_email_trace_smtp].
  intros ev Hev. destruct ev; cbn in Hev; try discriminate; reflexivity.
Qed.

(** Computing the response never reads from, writes to or closes the
    client connection. *)
Lemma quiet_dispatch (w : World) (request_data : value) :
  quiet (dispatch w request_data).
Proof.
  unfold dispatch.
  apply quiet_bind; [apply quiet_lift | intros request_type].
  destruct (eq_str request_type "recipe").
  - apply quiet_bind; [apply quiet_lift | intros food_type].
    apply quiet_bind; [apply quiet_lift | intros recipient_email].
    apply quiet_bind; [apply quiet_get_recipe_ingredients | intros ingredients].
    destruct (truthy (VList ingredients)); [| apply quiet_ret].
    apply quiet_bind; [apply quiet_lift | intros ingredients_list].
    apply quiet_bind; [apply quiet_send_email | intros [success message]].
    apply quiet_ret.
  - destruct (eq_str request_type "fetch_emails"); [| apply quiet_ret].
    apply quiet_bind; [apply quiet_fetch_recent_emails | intros emails].
    apply quiet_ret.
Qed.

Lemma eq_str_false (v : value) (s : string) : v <> VStr s -> eq_str v s = false.
Proof.
  intros Hne. destruct v; try reflexivity. cbn.
  destruct (String.eqb_spec s0 s) as [-> | _]; [congruence | reflexivity].
Qed.

Lemma truthy_bytes (data : string) : data <> "" -> truthy (VBytes data) = true.
Proof. destruct data; [congruence | reflexivity]. Qed.

Lemma str_join_strings (sep : string) (names : list string) :
  str_join sep (map VStr names) = Ok (String.concat sep names).
Proof.
  unfold str_join. generalize 0.
  induction names as [| name rest IH]; intros i; [reflexivity |].
  cbn [map join_from String.concat]. rewrite IH. cbn [rbind].
  destruct rest; reflexivity.
Qed.

(** The error object of the catch-all handler can always be encoded. *)
Lemma json_dumps_error_response (text : string) :
  json_dumps (error_response text) = Ok (JsonText (error_response text)).
Proof. reflexivity. Qed.

(** The catch-all clause: the [print] of line 214, then the write of
    the error object. *)
Lemma catch_all_run (w : World) (e : exn) :
  catch_all w e =
  match stdout_print w (handler_error_line e) with
  | Ok _ => ([ConnSendall (JsonText (error_response e))],
             conn_sendall w (JsonText (error_response e)))
  | Raise e' => ([], Raise e')
  end.
Proof.
  unfold catch_all, handler_error_line. rewrite bind_print.
  destruct (stdout_print w _) as [[] | e']; [| reflexivity].
  unfold send_response. fold (error_response e).
  rewrite json_dumps_error_response. run. reflexivity.
Qed.

Section Handling.

Variable w : World.
Variables data text : string.
Variable request_data : value.
Hypothesis Hrecv : conn_recv w 1024 = Ok data.
Hypothesis Hdata : data <> "".
Hypothesis Hdecode : utf8_decode w data = Ok text.
Hypothesis Hloads : json_loads w text = Ok request_data.

(** The request was read and decoded, the response was computed and
    encoded, and the write succeeds: one response, then the close. *)
Lemma handle_reply (t : trace) (response : value) :
  dispatch w request_data = (t, Ok response) ->
  json_dumps response = Ok (JsonText response) ->
  conn_sendall w (JsonText response) = Ok tt ->
  fst (handle_client_connection w) =
  (ConnRecv 1024 :: t ++ [ConnSendall (JsonText response); ConnClose])%list.
Proof.
  intros Hdispatch Hdumps Hsend.
  unfold handle_client_connection. rewrite fst_try_finally.
  rewrite Hrecv. run. rewrite (truthy_bytes _ Hdata). cbn [negb].
  rewrite Hdecode. run. rewrite Hloads. run. rewrite Hdispatch.
  rewrite bind_Ok. unfold send_response. rewrite Hdumps. run. rewrite Hsend.
  cbn. rewrite <- app_assoc. reflexivity.
Qed.

(** Computing or encoding the response raised [e], and the catch-all
    clause can print: it writes the error object. *)
Lemma handle_error_reply (t : trace) (e : exn) :
  (dispatch w request_data = (t, Raise e)
   \/ exists response, dispatch w request_data = (t, Ok response)
                       /\ json_dumps response = Raise e) ->
  stdout_print w (handler_error_line e) = Ok tt ->
  conn_sendall w (JsonText (error_response e)) = Ok tt ->
  fst (handle_client_connection w) =
  (ConnRecv 1024 :: t ++ [ConnSendall (JsonText (error_response e)); ConnClose])%list.
Proof.
  intros Hdispatch Hprint Hsend.
  unfold handle_client_connection. fold (catch_all w). rewrite fst_try_finally.
  rewrite Hrecv. run. rewrite (truthy_bytes _ Hdata). cbn [negb].
  rewrite Hdecode. run. rewrite Hloads. run.
  destruct Hdispatch as [Hdispatch | (response & Hdispatch & Hdumps)];
    rewrite Hdispatch.
  - cbn [bind fst snd]. rewrite try_except_Raise, catch_all_run, Hprint.
    cbn. rewrite <- app_assoc. reflexivity.
  - rewrite bind_Ok. unfold send_response. rewrite Hdumps. run.
    rewrite app_nil_r, try_except_Raise, catch_all_run, Hprint.
    cbn. rewrite <- app_assoc. reflexivity.
Qed.

End Handling.

(** *** Requests of an unknown type *)

Lemma dispatch_unknown_type (w : World) (entries : list (string * value))
    (request_type : value) :
  assoc "type" entries = Some request_type ->
  request_type <> VStr "recipe" ->
  request_type <> VStr "fetch_emails" ->
  dispatch w (VDict entries) = ([], Ok invalid_request_response).
Proof.
  intros Htype Hrecipe Hfetch.
  unfold dispatch. cbn [py_get]. rewrite Htype. run.
  rewrite (eq_str_false _ _ Hrecipe), (eq_str_false _ _ Hfetch). reflexivity.
Qed.

(** C1, as amended.  For every request that decodes to a JSON object
    whose [type] field is present and is neither ["recipe"] nor
    ["fetch_emails"], the response computed is exactly
    [{"success": false, "message": "Invalid request type"}], no
    external service is called, and that object is the one reply written
    before the connection is closed. *)
Theorem unknown_type_invalid_request (w : World) (data text : string)
    (entries : list (string * value)) (request_type : value) :
  conn_recv w 1024 = Ok data ->
  data <> "" ->
  utf8_decode w data = Ok text ->
  json_loads w text = Ok (VDict entries) ->
  assoc "type" entries = Some request_type ->
  request_type <> VStr "recipe" ->
  request_type <> VStr "fetch_emails" ->
  conn_sendall w (JsonText invalid_request_response) = Ok tt ->
  dispatch w (VDict entries) = ([], Ok invalid_request_response)
  /\ fst (handle_client_connection w) =
       [ConnRecv 1024; ConnSendall (JsonText invalid_request_response); ConnClose].
Proof.
  intros Hrecv Hdata Hdecode Hloads Htype Hrecipe Hfetch Hsend.
  pose proof (dispatch_unknown_type w entries request_type Htype Hrecipe Hfetch) as Hd.
  split; [exact Hd |].
  apply (handle_reply w data text (VDict entries) Hrecv Hdata Hdecode Hloads [] _ Hd);
    [reflexivity | exact Hsend].
Qed.

Lemma unknown_type_invalid_request_witness :
  dispatch unknown_type_world (VDict [("type", VStr "ping")])
    = ([], Ok invalid_request_response)
  /\ fst (handle_client_connection unknown_type_world) =
       [ConnRecv 1024; ConnSendall (JsonText invalid_request_response); ConnClose].
Proof.
  apply (unknown_type_invalid_request unknown_type_world "{type: ping}" "{type: ping}"
           [("type", VStr "ping")] (VStr "ping"));
    try reflexivity; discriminate.
Defined.

(** A request without [type] takes the default ["recipe"] of line 153:
    the request [{}] is answered as a recipe request. *)
Lemma missing_type_is_a_recipe_request :
  responses (fst (handle_client_connection untyped_world))
    = [JsonText no_ingredients_response]
  /\ ~ missing_or_unknown_type_is_invalid untyped_world.
Proof.
  split; [reflexivity |].
  intros Hclaim.
  specialize (Hclaim "{}" "{}" [] eq_refl).
  assert (Hne : "{}" <> "") by discriminate.
  specialize (Hclaim Hne eq_refl eq_refl (or_introl eq_refl)).
  discriminate Hclaim.
Qed.

(** *** Recipe requests *)

(** The part of [dispatch] before the lookup's answer is examined. *)
Lemma dispatch_recipe (w : World) (entries : list (string * value)) :
  request_get entries "type" (VStr "recipe") = VStr "recipe" ->
  dispatch w (VDict entries) =
  bind (get_recipe_ingredients w (request_get entries "food_type" VNone) (api_key_of w))
       (fun ingredients =>
          if truthy (VList ingredients)
          then
            bind (lift (str_join nl ingredients)) (fun ingredients_list =>
            bind (send_email w (account w) (request_get entries "recipient_email" VNone)
                    (recipe_subject w (request_get entries "food_type" VNone))
                    (recipe_body w (request_get entries "food_type" VNone)
                                 ingredients_list))
                 (fun sent => let (success, message) := sent : bool * string in
                              ret (recipe_response success message ingredients)))
          else ret no_ingredients_response).
Proof.
  intros Htype. unfold dispatch. cbn [py_get]. fold (request_get entries "type" (VStr "recipe")).
  rewrite Htype. run. cbn [eq_str String.eqb Ascii.eqb Bool.eqb]. run. reflexivity.
Qed.

(** C5.  A recipe request for which the lookup returns the empty list
    is answered with exactly
    [{"success": false, "message": "No ingredients found", "ingredients": []}],
    and no SMTP call is made: the whole exchange is the read, the one
    HTTP request, the reply and the close. *)
Theorem recipe_without_ingredients (w : World) (data text : string)
    (entries : list (string * value)) :
  conn_recv w 1024 = Ok data ->
  data <> "" ->
  utf8_decode w data = Ok text ->
  json_loads w text = Ok (VDict entries) ->
  request_get entries "type" (VStr "recipe") = VStr "recipe" ->
  snd (get_recipe_ingredients w (request_get entries "food_type" VNone) (api_key_of w))
    = Ok [] ->
  conn_sendall w (JsonText no_ingredients_response) = Ok tt ->
  snd (dispatch w (VDict entries)) = Ok no_ingredients_response
  /\ fst (handle_client_connection w) =
       [ConnRecv 1024;
        HttpGet recipe_search_url
          (recipe_search_params (request_get entries "food_type" VNone) (api_key_of w));
        ConnSendall (JsonText no_ingredients_response);
        ConnClose]
  /\ Forall (fun ev => is_smtp ev = false) (fst (handle_client_connection w)).
Proof.
  intros Hrecv Hdata Hdecode Hloads Htype Hlookup Hsend.
  assert (Hd : dispatch w (VDict entries) =
               ([HttpGet recipe_search_url
                   (recipe_search_params (request_get entries "food_type" VNone)
                                         (api_key_of w))],
                Ok no_ingredients_response)).
  { rewrite (dispatch_recipe w entries Htype).
    rewrite get_recipe_ingredients_eta, Hlookup. reflexivity. }
  assert (Ht : fst (handle_client_connection w) =
               [ConnRecv 1024;
                HttpGet recipe_search_url
                  (recipe_search_params (request_get entries "food_type" VNone)
                                        (api_key_of w));
                ConnSendall (JsonText no_ingredients_response);
                ConnClose]).
  { apply (handle_reply w data text (VDict entries) Hrecv Hdata Hdecode Hloads _ _ Hd);
      [reflexivity | exact Hsend]. }
  split; [rewrite Hd; reflexivity |].
  split; [exact Ht |].
  rewrite Ht. repeat constructor.
Qed.

Lemma recipe_without_ingredients_witness :
  snd (dispatch unknown_dish_world unknown_dish_request) = Ok no_ingredients_response
  /\ fst (handle_client_connection unknown_dish_world) =
       [ConnRecv 1024;
        HttpGet recipe_search_url
          (recipe_search_params (VStr "zzz") (VStr "SPOONACULAR_API_KEY"));
        ConnSendall (JsonText no_ingredients_response);
        ConnClose]
  /\ Forall (fun ev => is_smtp ev = false)
            (fst (handle_client_connection unknown_dish_world)).
Proof.
  apply (recipe_without_ingredients unknown_dish_world "{zzz request}" "{zzz request}"
           [("type", VStr "recipe"); ("food_type", VStr "zzz");
            ("recipient_email", VStr "a@b.com")]);
    try reflexivity; discriminate.
Defined.

Lemma strings_serializable (names : list string) :
  not_serializable (VList (map VStr names)) = None.
Proof.
  induction names as [| name rest IH]; [reflexivity | exact IH].
Qed.

Lemma json_dumps_recipe_response (success : bool) (message : string)
    (names : list string) :
  json_dumps (recipe_response success message (map VStr names))
  = Ok (JsonText (recipe_response success message (map VStr names))).
Proof.
  unfold json_dumps.
  pose proof (strings_serializable names) as Hnames.
  cbn [recipe_response not_serializable] in *. rewrite Hnames. reflexivity.
Qed.

(** C2.  A recipe request for which the lookup returns a non-empty
    list of ingredient strings and the mail is sent: the response is
    [{"success": true, "message": "Email sent successfully",
      "ingredients": L}] with [L] the list the lookup returned, in
    order, and the text part of the message handed to the SMTP server is
    the body of line 176, which ends with the ingredients joined by
    newlines in that order. *)
Theorem recipe_success (w : World) (data text : string)
    (entries : list (string * value)) (names : list string) (message : string) :
  conn_recv w 1024 = Ok data ->
  data <> "" ->
  utf8_decode w data = Ok text ->
  json_loads w text = Ok (VDict entries) ->
  request_get entries "type" (VStr "recipe") = VStr "recipe" ->
  snd (get_recipe_ingredients w (request_get entries "food_type" VNone) (api_key_of w))
    = Ok (map VStr names) ->
  names <> [] ->
  snd (send_email w (account w) (request_get entries "recipient_email" VNone)
         (recipe_subject w (request_get entries "food_type" VNone))
         (recipe_body w (request_get entries "food_type" VNone) (String.concat nl names)))
    = Ok (true, message) ->
  conn_sendall w (JsonText (recipe_response true "Email sent successfully"
                                            (map VStr names))) = Ok tt ->
  snd (dispatch w (VDict entries))
    = Ok (recipe_response true "Email sent successfully" (map VStr names))
  /\ exists sent_text,
       mime_as_string w
         {| mime_from := email_address (account w);
            mime_to := request_get entries "recipient_email" VNone;
            mime_subject := recipe_subject w (request_get entries "food_type" VNone);
            mime_attached :=
              [MIMEText ("Here are the ingredients for your "
                           ++ format_value w (request_get entries "food_type" VNone)
                           ++ " recipe:" ++ nl ++ nl ++ String.concat nl names)
                        "plain"] |}
       = Ok sent_text
       /\ fst (handle_client_connection w) =
            [ConnRecv 1024;
             HttpGet recipe_search_url
               (recipe_search_params (request_get entries "food_type" VNone)
                                     (api_key_of w));
             SmtpConnect "smtp.gmail.com" 587;
             SmtpStarttls;
             SmtpLogin (email_address (account w)) (email_password (account w));
             SmtpSendmail (email_address (account w))
                          (request_get entries "recipient_email" VNone) sent_text;
             SmtpQuit;
             ConnSendall (JsonText (recipe_response true "Email sent successfully"
                                                    (map VStr names)));
             ConnClose].
Proof.
  intros Hrecv Hdata Hdecode Hloads Htype Hlookup Hnames Hsent Hsend.
  destruct (send_email_success_inv _ _ _ _ _ _ Hsent) as (-> & sent_text & Hmime & Htrace).
  assert (Hd : dispatch w (VDict entries) =
               ([HttpGet recipe_search_url
                   (recipe_search_params (request_get entries "food_type" VNone)
                                         (api_key_of w));
                 SmtpConnect "smtp.gmail.com" 587;
                 SmtpStarttls;
                 SmtpLogin (email_address (account w)) (email_password (account w));
                 SmtpSendmail (email_address (account w))
                              (request_get entries "recipient_email" VNone) sent_text;
                 SmtpQuit],
                Ok (recipe_response true "Email sent successfully" (map VStr names)))).
  { rewrite (dispatch_recipe w entries Htype).
    rewrite get_recipe_ingredients_eta, Hlookup, bind_Ok.
    replace (truthy (VList (map VStr names))) with true
      by (destruct names; [congruence | reflexivity]).
    rewrite str_join_strings. run.
    destruct (send_email w _ _ _ _) as [t r]. cbn [fst snd] in *. subst t r.
    rewrite bind_Ok. reflexivity. }
  split; [rewrite Hd; reflexivity |].
  exists sent_text. split; [exact Hmime |].
  apply (handle_reply w data text (VDict entries) Hrecv Hdata Hdecode Hloads _ _ Hd);
    [| exact Hsend].
  apply json_dumps_recipe_response.
Qed.

Lemma recipe_success_witness :
  snd (dispatch pasta_world pasta_request)
    = Ok (recipe_response true "Email sent successfully"
                          [VStr "200g pasta"; VStr "1 onion"])
  /\ exists sent_text,
       mime_as_string pasta_world
         {| mime_from := VStr "EMAIL_ADDRESS";
            mime_to := VStr "a@b.com";
            mime_subject := "Ingredients for pasta Recipe";
            mime_attached :=
              [MIMEText ("Here are the ingredients for your pasta recipe:"
                           ++ nl ++ nl ++ "200g pasta" ++ nl ++ "1 onion")
                        "plain"] |}
       = Ok sent_text
       /\ fst (handle_client_connection pasta_world) =
            [ConnRecv 1024;
             HttpGet recipe_search_url
               (recipe_search_params (VStr "pasta") (VStr "SPOONACULAR_API_KEY"));
             SmtpConnect "smtp.gmail.com" 587;
             SmtpStarttls;
             SmtpLogin (VStr "EMAIL_ADDRESS") (VStr "EMAIL_PASSWORD");
             SmtpSendmail (VStr "EMAIL_ADDRESS") (VStr "a@b.com") sent_text;
             SmtpQuit;
             ConnSendall (JsonText (recipe_response true "Email sent successfully"
                                      [VStr "200g pasta"; VStr "1 onion"]));
             ConnClose].
Proof.
  apply (recipe_success pasta_world "{pasta request}" "{pasta request}"
           [("type", VStr "recipe"); ("food_type", VStr "pasta");
            ("recipient_email", VStr "a@b.com")]
           ["200g pasta"; "1 onion"] "Email sent successfully");
    try reflexivity; discriminate.
Defined.

(** A list with an entry that is not a string makes ['\n'.join] raise,
    and the catch-all handler reports the [TypeError]. *)
Example join_rejects_non_strings :
  str_join nl [VStr "200g pasta"; VInt 1]
  = Raise "sequence item 1: expected str instance, int found".
Proof. reflexivity. Qed.

(** *** [fetch_emails] requests *)

Lemma dispatch_fetch_emails (w : World) (entries : list (string * value)) :
  assoc "type" entries = Some (VStr "fetch_emails") ->
  dispatch w (VDict entries) =
  bind (fetch_recent_emails w (account w) "UNSEEN" 5)
       (fun emails => ret (emails_response emails)).
Proof.
  intros Htype. unfold dispatch. cbn [py_get]. rewrite Htype. run. reflexivity.
Qed.

(** The mail server cannot be reached: the failure is printed and
    swallowed, and the response is [{"success": true, "emails": []}]. *)
Lemma fetch_emails_unreachable (w : World) (entries : list (string * value)) (e : exn) :
  assoc "type" entries = Some (VStr "fetch_emails") ->
  imap_connect w "imap.gmail.com" 993 = Raise e ->
  stdout_print w (imap_error_line e) = Ok tt ->
  dispatch w (VDict entries) =
  ([ImapConnect "imap.gmail.com" 993], Ok (emails_response [])).
Proof.
  intros Htype Hconnect Hprint. rewrite (dispatch_fetch_emails w entries Htype).
  unfold fetch_recent_emails. cbn [account EmailAutomation_init imap_server imap_port].
  rewrite Hconnect, bind_call_Raise.
  rewrite (caught_print_ret (A := list value) w _ e
             (fun e0 => "IMAP Email fetching error: " ++ e0) (fun _ => [])).
  unfold imap_error_line in Hprint. rewrite Hprint. reflexivity.
Qed.

(** When the session goes through, the fetcher called with the
    defaults returns [min(5, matches)] summaries. *)
Lemma fetch_emails_default_count (w : World) (search_data_0 : string)
    (emails : list value) :
  imap_connect w "imap.gmail.com" 993 = Ok tt ->
  imap_login w (email_address (account w)) (email_password (account w)) = Ok tt ->
  imap_select w "inbox" = Ok tt ->
  imap_search w "UNSEEN" = Ok search_data_0 ->
  Forall2 (fun email_id summary => snd (fetch_one w email_id) = Ok summary)
          (slice_from (- 5) (bytes_split search_data_0)) emails ->
  imap_close w = Ok tt ->
  imap_logout w = Ok tt ->
  snd (fetch_recent_emails w (account w) "UNSEEN" 5) = Ok emails
  /\ length emails = Nat.min 5 (length (bytes_split search_data_0)).
Proof.
  intros. apply (fetch_positive_limit_count w (account w) "UNSEEN" search_data_0 5);
    auto; lia.
Qed.

(** But as soon as the list is not empty the response cannot be encoded
    (each [id] is a [bytes] object), and what the client is sent, when
    the catch-all clause can print, is its error object. *)
Lemma fetch_emails_found_reply (w : World) (data text : string)
    (entries : list (string * value)) (t : trace) (emails : list value) :
  conn_recv w 1024 = Ok data ->
  data <> "" ->
  utf8_decode w data = Ok text ->
  json_loads w text = Ok (VDict entries) ->
  assoc "type" entries = Some (VStr "fetch_emails") ->
  fetch_recent_emails w (account w) "UNSEEN" 5 = (t, Ok emails) ->
  emails <> [] ->
  stdout_print w (handler_error_line
                    "Object of type bytes is not JSON serializable") = Ok tt ->
  conn_sendall w (JsonText (error_response
                              "Object of type bytes is not JSON serializable")) = Ok tt ->
  fst (handle_client_connection w) =
  (ConnRecv 1024 :: t ++
   [ConnSendall (JsonText (error_response
                             "Object of type bytes is not JSON serializable"));
    ConnClose])%list.
Proof.
  intros Hrecv Hdata Hdecode Hloads Htype Hfetch Hne Hprint Hsend.
  apply (handle_error_reply w data text (VDict entries) Hrecv Hdata Hdecode Hloads);
    [| exact Hprint | exact Hsend].
  right. exists (emails_response emails). split.
  - rewrite (dispatch_fetch_emails w entries Htype), Hfetch, bind_Ok.
    cbn. rewrite app_nil_r. reflexivity.
  - apply (emails_response_not_serializable w (account w) "UNSEEN" 5); [| exact Hne].
    rewrite Hfetch. reflexivity.
Qed.

(** C3, at an inbox with one unseen message.  The fetcher returns one
    summary, [json.dumps] raises [TypeError] on its [bytes] id, and the
    reply is [{"success": false, "message": "Object of type bytes is not
    JSON serializable"}] instead of [{"success": true, "emails": [...]}]. *)
Theorem fetch_emails_one_unseen_reply :
  snd (fetch_recent_emails one_unseen_world (account one_unseen_world) "UNSEEN" 5)
    = Ok [VDict [("id", VBytes "1"); ("subject", VStr "Hello");
                 ("sender", VStr "bob@example.com"); ("body", VStr "Hi there")]]
  /\ handle_client_connection one_unseen_world =
       ([ConnRecv 1024;
         ImapConnect "imap.gmail.com" 993;
         ImapLogin (VStr "EMAIL_ADDRESS") (VStr "EMAIL_PASSWORD");
         ImapSelect "inbox";
         ImapSearch "UNSEEN";
         ImapFetch "1" "(RFC822)";
         ImapClose;
         ImapLogout;
         ConnSendall (JsonText (error_response
                                  "Object of type bytes is not JSON serializable"));
         ConnClose],
        Ok tt).
Proof. split; reflexivity. Qed.

(** ** The connection *)

Lemma send_response_error (w : World) (e : exn) :
  send_response w (error_response e) =
  ([ConnSendall (JsonText (error_response e))],
   conn_sendall w (JsonText (error_response e))).
Proof.
  unfold send_response. rewrite json_dumps_error_response. run. reflexivity.
Qed.

Lemma send_response_run (w : World) (response : value) :
  send_response w response =
  match json_dumps response with
  | Ok p => ([ConnSendall p], conn_sendall w p)
  | Raise e => ([], Raise e)
  end.
Proof.
  unfold send_response. destruct (json_dumps response); run; reflexivity.
Qed.

Lemma caught_trace (w : World) (t : trace) (e : exn) :
  fst (try_except (t, Raise e) (catch_all w)) =
  (t ++ map ConnSendall (caught_writes w e))%list.
Proof.
  rewrite try_except_Raise, catch_all_run. unfold caught_writes.
  destruct (stdout_print w (handler_error_line e)) as [[] | e']; reflexivity.
Qed.

Lemma caught_writes_printed (w : World) (e : exn) :
  stdout_print w (handler_error_line e) = Ok tt ->
  caught_writes w e = [JsonText (error_response e)].
Proof. intros H. unfold caught_writes. rewrite H. reflexivity. Qed.

Ltac caught_shape e :=
  rewrite caught_trace; cbn [app map]; rewrite <- ?app_assoc; cbn [app map];
  split; [assumption || constructor |];
  split; [reflexivity |];
  split; [discriminate |];
  let Hprint := fresh "Hprint" in
  intros _ _ Hprint; rewrite (caught_writes_printed _ _ (Hprint e)); eauto.

(** Every run of the handler is a read, then calls to the outside
    services, then at most two writes (the response, and the error
    object when something raised and the catch-all clause could print),
    then the close. *)
Lemma handle_shape (w : World) :
  exists (t : trace) (sent : list payload),
    Forall (fun ev => is_conn ev = false) t
    /\ fst (handle_client_connection w) =
         (ConnRecv 1024 :: t ++ map ConnSendall sent ++ [ConnClose])%list
    /\ (conn_recv w 1024 = Ok "" -> t = [] /\ sent = [])
    /\ (conn_recv w 1024 <> Ok "" ->
        (forall p, conn_sendall w p = Ok tt) ->
        (forall e, stdout_print w (handler_error_line e) = Ok tt) ->
        exists p, sent = [p]).
Proof.
  unfold handle_client_connection. fold (catch_all w).
  rewrite fst_try_finally. cbn [call fst].
  destruct (conn_recv w 1024) as [data | e] eqn:Hrecv.
  2:{ exists [], (caught_writes w e). rewrite bind_call_Raise. caught_shape e. }
  run. destruct data as [| c d].
  { exists [], []. repeat split; try constructor; congruence. }
  cbn [truthy negb String.eqb].
  destruct (utf8_decode w (String c d)) as [text | e].
  2:{ exists [], (caught_writes w e). run. caught_shape e. }
  run. destruct (json_loads w text) as [request_data | e].
  2:{ exists [], (caught_writes w e). run. caught_shape e. }
  run. pose proof (quiet_dispatch w request_data) as Hquiet. unfold quiet in Hquiet.
  destruct (dispatch w request_data) as [t [response | e]]; cbn [fst] in Hquiet.
  2:{ exists t, (caught_writes w e). cbn [bind fst snd]. caught_shape e. }
  rewrite bind_Ok, (send_response_run w response).
  destruct (json_dumps response) as [p | e].
  2:{ exists t, (caught_writes w e). cbn [fst snd]. rewrite app_nil_r. caught_shape e. }
  cbn [fst snd]. destruct (conn_sendall w p) as [[] | e] eqn:Hsend.
  - exists t, [p]. rewrite try_except_Ok. cbn [fst map app]. rewrite <- app_assoc.
    repeat split; try assumption; try discriminate; eauto.
  - exists t, (p :: caught_writes w e).
    rewrite caught_trace. cbn [app map]. rewrite <- !app_assoc. cbn [app map].
    repeat split; try assumption; try discriminate.
    intros _ Hall. rewrite Hall in Hsend. discriminate.
Qed.

(** C4, as amended.  Whatever happens while a connection is handled,
    the connection is closed exactly once, as the last action.  When the
    read returns no data, nothing is written before the close.  In every
    other case (data was read, or the read itself raised), and provided
    that neither writing to the client nor the [print] of the catch-all
    clause fails, exactly one JSON object is written, and the close
    follows it. *)
Theorem connection_always_closed (w : World) :
  (exists before,
     fst (handle_client_connection w) = (before ++ [ConnClose])%list
     /\ closes before = 0)
  /\ (conn_recv w 1024 = Ok "" ->
      fst (handle_client_connection w) = [ConnRecv 1024; ConnClose])
  /\ (conn_recv w 1024 <> Ok "" ->
      (forall p, conn_sendall w p = Ok tt) ->
      (forall e, stdout_print w (handler_error_line e) = Ok tt) ->
      one_response_then_close (fst (handle_client_connection w))).
Proof.
  destruct (handle_shape w) as (t & sent & Hquiet & Htrace & Hempty & Hone).
  destruct (quiet_responses t Hquiet) as [Hresp Hcloses].
  rewrite Htrace. split; [| split].
  - exists (ConnRecv 1024 :: t ++ map ConnSendall sent)%list. split.
    + cbn [app]. rewrite <- app_assoc. reflexivity.
    + cbn [closes]. rewrite closes_app, Hcloses. cbn [Nat.add].
      clear. induction sent as [| p rest IH]; [reflexivity | exact IH].
  - intros Hrecv. destruct (Hempty Hrecv) as [-> ->]. reflexivity.
  - intros Hrecv Hsend Hprint. destruct (Hone Hrecv Hsend Hprint) as [p ->].
    exists p, (ConnRecv 1024 :: t). split; [| split].
    + cbn [map app]. reflexivity.
    + cbn [responses]. exact Hresp.
    + cbn [closes]. exact Hcloses.
Qed.

Lemma connection_always_closed_witness :
  fst (handle_client_connection silent_peer_world) = [ConnRecv 1024; ConnClose]
  /\ one_response_then_close (fst (handle_client_connection pasta_world)).
Proof.
  split.
  - apply (proj1 (proj2 (connection_always_closed silent_peer_world))). reflexivity.
  - apply (proj2 (proj2 (connection_always_closed pasta_world))).
    + discriminate.
    + intros p. reflexivity.
    + intros e. reflexivity.
Defined.

(** A peer that sends nothing (the read returns [b""]) is taken through
    the early [return] of line 147: the connection is closed and nothing
    was written. *)
Lemma silent_peer_gets_no_response :
  handle_client_connection silent_peer_world = ([ConnRecv 1024; ConnClose], Ok tt)
  /\ ~ every_connection_gets_one_response.
Proof.
  split; [reflexivity |].
  intros Hclaim. destruct (Hclaim silent_peer_world) as (p & before & Htrace & _ & _).
  apply (f_equal responses) in Htrace.
  rewrite responses_app in Htrace. cbn in Htrace.
  destruct (responses before); discriminate.
Qed.

(** ** More on the connection handler *)

Lemma try_finally_call {A} (t : trace) (r : result A) (ev : event) (c : result unit) :
  try_finally (t, r) (call ev c) =
  ((t ++ [ev])%list, match c with Ok _ => r | Raise e => Raise e end).
Proof. destruct c as [[] | e]; reflexivity. Qed.

(** How the handler ends once the catch-all clause is entered with [e]
    after the calls [t]: with the write of the error object when the
    [print] of line 214 succeeds, and with the exception of the [print],
    nothing written, when it raises. *)
Lemma caught_run (w : World) (t : trace) (e : exn) :
  try_finally (try_except (t, Raise e) (catch_all w))
              (call ConnClose (conn_close w)) =
  match stdout_print w (handler_error_line e) with
  | Ok _ =>
      ((t ++ [ConnSendall (JsonText (error_response e)); ConnClose])%list,
       match conn_close w with
       | Ok _ => conn_sendall w (JsonText (error_response e))
       | Raise e' => Raise e'
       end)
  | Raise e1 =>
      ((t ++ [ConnClose])%list,
       match conn_close w with
       | Ok _ => Raise e1
       | Raise e' => Raise e'
       end)
  end.
Proof.
  rewrite try_except_Raise, catch_all_run.
  destruct (stdout_print w (handler_error_line e)) as [[] | e1];
    cbn [fst snd]; rewrite try_finally_call, <- ?app_assoc, ?app_nil_r; reflexivity.
Qed.

Section MoreHandling.

Variable w : World.
Variables data text : string.
Variable request_data : value.
Hypothesis Hrecv : conn_recv w 1024 = Ok data.
Hypothesis Hdata : data <> "".
Hypothesis Hdecode : utf8_decode w data = Ok text.
Hypothesis Hloads : json_loads w text = Ok request_data.

Lemma handle_unfold :
  handle_client_connection w =
  try_finally
    (try_except
       (ConnRecv 1024 :: fst (bind (dispatch w request_data) (send_response w)),
        snd (bind (dispatch w request_data) (send_response w)))
       (catch_all w))
    (call ConnClose (conn_close w)).
Proof.
  unfold handle_client_connection. fold (catch_all w).
  rewrite Hrecv. run. rewrite (truthy_bytes _ Hdata). cbn [negb].
  rewrite Hdecode. run. rewrite Hloads. run. reflexivity.
Qed.

(** Computing the response raised [e], and the catch-all clause can
    print. *)
Lemma handle_raise_run (t : trace) (e : exn) :
  dispatch w request_data = (t, Raise e) ->
  stdout_print w (handler_error_line e) = Ok tt ->
  handle_client_connection w =
  ((ConnRecv 1024 :: t ++ [ConnSendall (JsonText (error_response e)); ConnClose])%list,
   match conn_close w with
   | Ok _ => conn_sendall w (JsonText (error_response e))
   | Raise e' => Raise e'
   end).
Proof.
  intros Hdispatch Hprint. rewrite handle_unfold, Hdispatch. cbn [bind fst snd].
  rewrite caught_run, Hprint. reflexivity.
Qed.

(** The response was computed and encoded, and the write succeeds. *)
Lemma handle_reply_run (t : trace) (response : value) :
  dispatch w request_data = (t, Ok response) ->
  json_dumps response = Ok (JsonText response) ->
  conn_sendall w (JsonText response) = Ok tt ->
  handle_client_connection w =
  ((ConnRecv 1024 :: t ++ [ConnSendall (JsonText response); ConnClose])%list,
   conn_close w).
Proof.
  intros Hdispatch Hdumps Hsend. rewrite handle_unfold, Hdispatch, bind_Ok.
  rewrite send_response_run, Hdumps, Hsend. cbn [fst snd].
  rewrite try_except_Ok, try_finally_call.
  cbn [app]. rewrite <- app_assoc. cbn [app].
  destruct (conn_close w) as [[] | e]; reflexivity.
Qed.

(** The response was computed and encoded, and the write raises [e]. *)
Lemma handle_write_failure_run (t : trace) (response : value) (e : exn) :
  dispatch w request_data = (t, Ok response) ->
  json_dumps response = Ok (JsonText response) ->
  conn_sendall w (JsonText response) = Raise e ->
  handle_client_connection w =
  match stdout_print w (handler_error_line e) with
  | Ok _ =>
      ((ConnRecv 1024 :: t ++ [ConnSendall (JsonText response);
                               ConnSendall (JsonText (error_response e));
                               ConnClose])%list,
       match conn_close w with
       | Ok _ => conn_sendall w (JsonText (error_response e))
       | Raise e' => Raise e'
       end)
  | Raise e1 =>
      ((ConnRecv 1024 :: t ++ [ConnSendall (JsonText response); ConnClose])%list,
       match conn_close w with
       | Ok _ => Raise e1
       | Raise e' => Raise e'
       end)
  end.
Proof.
  intros Hdispatch Hdumps Hsend. rewrite handle_unfold, Hdispatch, bind_Ok.
  rewrite send_response_run, Hdumps, Hsend. cbn [fst snd].
  rewrite caught_run.
  destruct (stdout_print w (handler_error_line e)) as [[] | e1];
    cbn [app]; rewrite <- !app_assoc; reflexivity.
Qed.

End MoreHandling.

(** X1.  A request that decodes to something other than a JSON object
    (an array, a string, a number, [null]) makes [request_data.get]
    raise [AttributeError]: no outside service is called and, when the
    catch-all clause can print the error, the reply is the error object
    carrying the text ['<type>' object has no attribute 'get']. *)
Theorem non_object_request_reply (w : World) (data text : string)
    (request_data : value) :
  conn_recv w 1024 = Ok data ->
  data <> "" ->
  utf8_decode w data = Ok text ->
  json_loads w text = Ok request_data ->
  (forall entries, request_data <> VDict entries) ->
  stdout_print w (handler_error_line (no_get_attribute request_data)) = Ok tt ->
  fst (handle_client_connection w) =
  [ConnRecv 1024;
   ConnSendall (JsonText (error_response (no_get_attribute request_data)));
   ConnClose].
Proof.
  intros Hrecv Hdata Hdecode Hloads Hshape Hprint.
  rewrite (handle_raise_run w data text request_data Hrecv Hdata Hdecode Hloads
             [] (no_get_attribute request_data)); [reflexivity | | exact Hprint].
  unfold dispatch.
  destruct request_data; try reflexivity.
  exfalso. apply (Hshape entries). reflexivity.
Qed.

Lemma non_object_request_witness :
  fst (handle_client_connection array_world) =
  [ConnRecv 1024;
   ConnSendall (JsonText (error_response "'list' object has no attribute 'get'"));
   ConnClose].
Proof.
  apply (non_object_request_reply array_world "[1]" "[1]" (VList [VInt 1]));
    try reflexivity; discriminate.
Defined.

(** X2.  When reading from the connection, decoding the bytes or
    parsing the JSON raises [e], no outside service is called.  The
    catch-all clause prints the error: when that [print] succeeds the
    handler writes [{"success": false, "message": str(e)}] and closes
    the connection; when the [print] raises, nothing is written before
    the close. *)
Theorem unreadable_request_reply (w : World) (e : exn) :
  (conn_recv w 1024 = Raise e
   \/ exists data,
        conn_recv w 1024 = Ok data /\ data <> ""
        /\ (utf8_decode w data = Raise e
            \/ exists text, utf8_decode w data = Ok text
                            /\ json_loads w text = Raise e)) ->
  fst (handle_client_connection w) =
  match stdout_print w (handler_error_line e) with
  | Ok _ => [ConnRecv 1024; ConnSendall (JsonText (error_response e)); ConnClose]
  | Raise _ => [ConnRecv 1024; ConnClose]
  end.
Proof.
  assert (Hcaught :
            fst (try_finally (try_except ([ConnRecv 1024], Raise e) (catch_all w))
                             (call ConnClose (conn_close w))) =
            match stdout_print w (handler_error_line e) with
            | Ok _ => [ConnRecv 1024; ConnSendall (JsonText (error_response e));
                       ConnClose]
            | Raise _ => [ConnRecv 1024; ConnClose]
            end).
  { rewrite caught_run.
    destruct (stdout_print w (handler_error_line e)) as [[] | e1]; reflexivity. }
  intros [Hrecv | (data & Hrecv & Hdata & Hrest)];
    unfold handle_client_connection; fold (catch_all w); rewrite Hrecv.
  - rewrite bind_call_Raise. exact Hcaught.
  - run. rewrite (truthy_bytes _ Hdata). cbn [negb].
    destruct Hrest as [Hdecode | (text & Hdecode & Hloads)]; rewrite Hdecode.
    + run. exact Hcaught.
    + run. rewrite Hloads. run. exact Hcaught.
Qed.

Lemma unreadable_request_witness :
  fst (handle_client_connection garbage_world) =
  [ConnRecv 1024;
   ConnSendall (JsonText (error_response "Expecting value: line 1 column 1 (char 0)"));
   ConnClose].
Proof.
  apply (unreadable_request_reply garbage_world
           "Expecting value: line 1 column 1 (char 0)").
  right. exists "hello". split; [reflexivity |]. split; [discriminate |].
  right. exists "hello". split; reflexivity.
Defined.

(** X3.  When writing the response to the client raises [e], the
    catch-all clause prints the error and then makes a second write, of
    the error object for [e]; the connection is closed after it, and
    what the handler returns or raises is decided by that second write
    and the close.  When the [print] raises instead, there is no second
    write: the connection is closed and the exception of the [print]
    (or of the close) reaches the thread. *)
Theorem reply_write_failure (w : World) (data text : string) (request_data : value)
    (t : trace) (response : value) (e : exn) :
  conn_recv w 1024 = Ok data ->
  data <> "" ->
  utf8_decode w data = Ok text ->
  json_loads w text = Ok request_data ->
  dispatch w request_data = (t, Ok response) ->
  json_dumps response = Ok (JsonText response) ->
  conn_sendall w (JsonText response) = Raise e ->
  handle_client_connection w =
  match stdout_print w (handler_error_line e) with
  | Ok _ =>
      ((ConnRecv 1024 :: t ++ [ConnSendall (JsonText response);
                               ConnSendall (JsonText (error_response e));
                               ConnClose])%list,
       match conn_close w with
       | Ok _ => conn_sendall w (JsonText (error_response e))
       | Raise e' => Raise e'
       end)
  | Raise e1 =>
      ((ConnRecv 1024 :: t ++ [ConnSendall (JsonText response); ConnClose])%list,
       match conn_close w with
       | Ok _ => Raise e1
       | Raise e' => Raise e'
       end)
  end.
Proof.
  intros Hrecv Hdata Hdecode Hloads.
  apply (handle_write_failure_run w data text request_data Hrecv Hdata Hdecode Hloads).
Qed.

Lemma reply_write_failure_witness :
  handle_client_connection broken_pipe_world =
  ((ConnRecv 1024
    :: fst (dispatch broken_pipe_world pasta_request)
    ++ [ConnSendall (JsonText (recipe_response true "Email sent successfully"
                                 [VStr "200g pasta"; VStr "1 onion"]));
        ConnSendall (JsonText (error_response "[Errno 32] Broken pipe"));
        ConnClose])%list,
   Raise "[Errno 32] Broken pipe").
Proof.
  apply (reply_write_failure broken_pipe_world "{pasta request}" "{pasta request}"
           pasta_request _ _ "[Errno 32] Broken pipe");
    try reflexivity; discriminate.
Defined.

(** X4.  The handler raises nothing to the thread that runs it as long
    as closing the connection, the [print] of the catch-all clause and
    the writes of error objects succeed: every other failure, the failed
    write of a response and a raising [print] inside one of the three
    operations included, ends in a normal return. *)
Theorem handler_returns_normally (w : World) :
  conn_close w = Ok tt ->
  (forall e, stdout_print w (handler_error_line e) = Ok tt) ->
  (forall e, conn_sendall w (JsonText (error_response e)) = Ok tt) ->
  snd (handle_client_connection w) = Ok tt.
Proof.
  intros Hclose Hprint Herr.
  assert (Hcaught : forall t e,
            snd (try_finally (try_except (t, Raise e) (catch_all w))
                             (call ConnClose (conn_close w))) = Ok tt).
  { intros t e. rewrite caught_run, Hprint, Hclose. apply Herr. }
  unfold handle_client_connection. fold (catch_all w).
  destruct (conn_recv w 1024) as [data | e] eqn:Hrecv.
  2:{ rewrite bind_call_Raise. apply Hcaught. }
  run. destruct data as [| c d].
  { cbn. rewrite Hclose. reflexivity. }
  cbn [truthy negb String.eqb].
  destruct (utf8_decode w (String c d)) as [text | e]; run; [| apply Hcaught].
  destruct (json_loads w text) as [request_data | e]; run; [| apply Hcaught].
  destruct (dispatch w request_data) as [t [response | e]];
    [| cbn [bind fst snd]; apply Hcaught].
  rewrite bind_Ok, send_response_run.
  destruct (json_dumps response) as [p | e]; cbn [fst snd]; [| apply Hcaught].
  destruct (conn_sendall w p) as [[] | e]; [| apply Hcaught].
  rewrite try_except_Ok, try_finally_call, Hclose. reflexivity.
Qed.

Lemma handler_returns_normally_witness :
  snd (handle_client_connection garbage_world) = Ok tt.
Proof.
  apply (handler_returns_normally garbage_world); [reflexivity | |];
    intros e; reflexivity.
Defined.

(** ** More on recipe requests *)

Lemma eq_str_true (v : value) (s : string) : eq_str v s = true -> v = VStr s.
Proof.
  destruct v; cbn; try discriminate.
  intros H. apply String.eqb_eq in H. congruence.
Qed.

Lemma truthy_nonempty (items : list value) :
  items <> [] -> truthy (VList items) = true.
Proof. destruct items; [congruence | reflexivity]. Qed.

(** ['\n'.join] stops at the first item that is not a [str] and names
    its position. *)
Lemma join_from_non_string (i : nat) (sep : string) (before : list string)
    (item : value) (after : list value) :
  (forall s, item <> VStr s) ->
  join_from i sep (map VStr before ++ item :: after)%list
  = Raise (join_type_error (i + length before) item).
Proof.
  intros Hitem. revert i.
  induction before as [| s rest IH]; intros i.
  - cbn [map app length join_from]. rewrite Nat.add_0_r.
    destruct item; try reflexivity. exfalso. apply (Hitem s). reflexivity.
  - cbn [map app length join_from]. rewrite IH.
    rewrite Nat.add_succ_r. reflexivity.
Qed.

(** X5.  A recipe request whose mail cannot be sent is still answered
    with the ingredients: when the lookup returns a non-empty list of
    strings, the SMTP conversation fails with [e] and [send_email] can
    print that error, the response is
    [{"success": false, "message": str(e), "ingredients": L}], and it is
    the one object written to the client. *)
Theorem recipe_send_failure_reply (w : World) (data text : string)
    (entries : list (string * value)) (names : list string) (e : exn) :
  conn_recv w 1024 = Ok data ->
  data <> "" ->
  utf8_decode w data = Ok text ->
  json_loads w text = Ok (VDict entries) ->
  request_get entries "type" (VStr "recipe") = VStr "recipe" ->
  snd (get_recipe_ingredients w (request_get entries "food_type" VNone) (api_key_of w))
    = Ok (map VStr names) ->
  names <> [] ->
  smtp_conversation w (account w) (request_get entries "recipient_email" VNone)
    (recipe_subject w (request_get entries "food_type" VNone))
    (recipe_body w (request_get entries "food_type" VNone) (String.concat nl names))
    = Raise e ->
  stdout_print w (smtp_error_line e) = Ok tt ->
  conn_sendall w (JsonText (recipe_response false e (map VStr names))) = Ok tt ->
  snd (dispatch w (VDict entries)) = Ok (recipe_response false e (map VStr names))
  /\ responses (fst (handle_client_connection w))
     = [JsonText (recipe_response false e (map VStr names))].
Proof.
  intros Hrecv Hdata Hdecode Hloads Htype Hlookup Hnames Hsmtp Hprint Hsend.
  assert (Hd : snd (dispatch w (VDict entries))
               = Ok (recipe_response false e (map VStr names))).
  { rewrite (dispatch_recipe w entries Htype).
    rewrite get_recipe_ingredients_eta, Hlookup, bind_Ok.
    rewrite truthy_nonempty by (destruct names; [congruence | discriminate]).
    rewrite str_join_strings. run.
    pose proof (send_email_outcome w (account w)
                  (request_get entries "recipient_email" VNone)
                  (recipe_subject w (request_get entries "food_type" VNone))
                  (recipe_body w (request_get entries "food_type" VNone)
                               (String.concat nl names))) as Hout.
    rewrite Hsmtp, Hprint in Hout.
    destruct (send_email w _ _ _ _) as [t r]. cbn [snd] in Hout. subst r.
    rewrite bind_Ok. reflexivity. }
  split; [exact Hd |].
  pose proof (quiet_dispatch w (VDict entries)) as Hquiet. unfold quiet in Hquiet.
  destruct (dispatch w (VDict entries)) as [t r] eqn:Hdispatch.
  cbn [fst snd] in *. subst r.
  rewrite (handle_reply w data text (VDict entries) Hrecv Hdata Hdecode Hloads t _
             Hdispatch (json_dumps_recipe_response _ _ _) Hsend).
  cbn [responses]. rewrite responses_app.
  destruct (quiet_responses t Hquiet) as [-> _]. reflexivity.
Qed.

Lemma recipe_send_failure_witness :
  snd (dispatch login_refused_world pasta_request)
    = Ok (recipe_response false "(535, b'5.7.8 Username and Password not accepted')"
            [VStr "200g pasta"; VStr "1 onion"])
  /\ responses (fst (handle_client_connection login_refused_world))
     = [JsonText (recipe_response false
                    "(535, b'5.7.8 Username and Password not accepted')"
                    [VStr "200g pasta"; VStr "1 onion"])].
Proof.
  apply (recipe_send_failure_reply login_refused_world "{pasta request}" "{pasta request}"
           [("type", VStr "recipe"); ("food_type", VStr "pasta");
            ("recipient_email", VStr "a@b.com")]
           ["200g pasta"; "1 onion"]);
    try reflexivity; discriminate.
Defined.

(** X6.  When the list the lookup returns has an entry that is not a
    string, ['\n'.join] raises [TypeError] naming the first such entry:
    the mail server is never contacted and, when the catch-all clause
    can print the error, the reply is the error object with the text
    [sequence item <i>: expected str instance, <type> found]. *)
Theorem non_string_ingredient_reply (w : World) (data text : string)
    (entries : list (string * value)) (before : list string) (item : value)
    (after : list value) :
  conn_recv w 1024 = Ok data ->
  data <> "" ->
  utf8_decode w data = Ok text ->
  json_loads w text = Ok (VDict entries) ->
  request_get entries "type" (VStr "recipe") = VStr "recipe" ->
  snd (get_recipe_ingredients w (request_get entries "food_type" VNone) (api_key_of w))
    = Ok (map VStr before ++ item :: after)%list ->
  (forall s, item <> VStr s) ->
  stdout_print w (handler_error_line (join_type_error (length before) item)) = Ok tt ->
  fst (handle_client_connection w) =
  [ConnRecv 1024;
   HttpGet recipe_search_url
     (recipe_search_params (request_get entries "food_type" VNone) (api_key_of w));
   ConnSendall (JsonText (error_response (join_type_error (length before) item)));
   ConnClose].
Proof.
  intros Hrecv Hdata Hdecode Hloads Htype Hlookup Hitem Hprint.
  rewrite (handle_raise_run w data text (VDict entries) Hrecv Hdata Hdecode Hloads
             [HttpGet recipe_search_url
                (recipe_search_params (request_get entries "food_type" VNone)
                                      (api_key_of w))]
             (join_type_error (length before) item)); [reflexivity | | exact Hprint].
  rewrite (dispatch_recipe w entries Htype).
  rewrite get_recipe_ingredients_eta, Hlookup, bind_Ok.
  rewrite truthy_nonempty by (destruct before; discriminate).
  unfold str_join. rewrite (join_from_non_string 0 nl before item after Hitem).
  reflexivity.
Qed.

Lemma non_string_ingredient_witness :
  fst (handle_client_connection odd_api_world) =
  [ConnRecv 1024;
   HttpGet recipe_search_url
     (recipe_search_params (VStr "pasta") (VStr "SPOONACULAR_API_KEY"));
   ConnSendall (JsonText (error_response
                            "sequence item 1: expected str instance, int found"));
   ConnClose].
Proof.
  apply (non_string_ingredient_reply odd_api_world "{pasta request}" "{pasta request}"
           [("type", VStr "recipe"); ("food_type", VStr "pasta");
            ("recipient_email", VStr "a@b.com")]
           ["200g pasta"] (VInt 1) []);
    try reflexivity; try discriminate.
Defined.

(** An exception that leaves one of the three operations was raised by
    a [print]. *)
Lemma printing_clause_raises {A} (w : World) (m : M A) (text : exn -> string)
    (a : exn -> A) (e : exn) :
  snd (try_except m (fun e0 => bind (py_print w (text e0)) (fun _ => ret (a e0))))
    = Raise e ->
  exists line, stdout_print w line = Raise e.
Proof.
  destruct m as [t [x | e0]]; [discriminate |].
  rewrite caught_print_ret. cbn [snd].
  destruct (stdout_print w (text e0)) as [[] | e1] eqn:Hprint; [discriminate |].
  intros [= <-]. eauto.
Qed.

(** X7.  For a request that is a JSON object, an exception raised while
    the response is computed has one of two origins: the ['\n'.join] of
    a recipe request, or a [print] that raised inside an [except]
    clause.  Lookup, mail and inbox failures themselves never leave the
    dispatcher as exceptions. *)
Theorem dispatch_raises_only_from_join_or_print (w : World)
    (entries : list (string * value)) (e : exn) :
  snd (dispatch w (VDict entries)) = Raise e ->
  (request_get entries "type" (VStr "recipe") = VStr "recipe"
   /\ exists ingredients,
        snd (get_recipe_ingredients w (request_get entries "food_type" VNone)
                                    (api_key_of w)) = Ok ingredients
        /\ str_join nl ingredients = Raise e)
  \/ exists line, stdout_print w line = Raise e.
Proof.
  unfold dispatch. cbn [py_get].
  fold (request_get entries "type" (VStr "recipe")).
  fold (request_get entries "food_type" VNone).
  fold (request_get entries "recipient_email" VNone).
  fold (api_key_of w). fold (account w). run.
  destruct (eq_str (request_get entries "type" (VStr "recipe")) "recipe") eqn:Htype.
  - apply eq_str_true in Htype. run.
    rewrite get_recipe_ingredients_eta.
    destruct (snd (get_recipe_ingredients w _ _)) as [ingredients | e0] eqn:Hlookup.
    2:{ cbn [bind snd]. intros [= <-]. right.
        apply (printing_clause_raises w _ (fun e0 => "API Error: " ++ e0)
                                      (fun _ => []) _ Hlookup). }
    rewrite bind_Ok. cbn [fst snd].
    destruct (truthy (VList ingredients)); [| discriminate].
    destruct (str_join nl ingredients) as [joined | e0] eqn:Hjoin.
    + run.
      destruct (send_email w (account w) (request_get entries "recipient_email" VNone)
                  (recipe_subject w (request_get entries "food_type" VNone))
                  (recipe_body w (request_get entries "food_type" VNone) joined))
        as [t [[success message] | e0]] eqn:Hsent.
      * rewrite bind_Ok. discriminate.
      * cbn [bind snd]. intros [= <-]. right.
        exact (printing_clause_raises w _ (fun e0 => "SMTP Email sending error: " ++ e0)
                 (fun e0 => (false, e0)) e0 (f_equal snd Hsent)).
    + run. cbn [snd]. intros [= <-]. left. split; [exact Htype |].
      exists ingredients. split; [reflexivity | exact Hjoin].
  - destruct (eq_str (request_get entries "type" (VStr "recipe")) "fetch_emails");
      [| discriminate].
    destruct (fetch_recent_emails w (account w) "UNSEEN" 5) as [t [emails | e0]] eqn:Hf.
    + rewrite bind_Ok. discriminate.
    + cbn [bind snd]. intros [= <-]. right.
      exact (printing_clause_raises w _ (fun e0 => "IMAP Email fetching error: " ++ e0)
               (fun _ => []) e0 (f_equal snd Hf)).
Qed.

Lemma dispatch_raises_witness :
  (request_get [("type", VStr "recipe"); ("food_type", VStr "pasta");
                ("recipient_email", VStr "a@b.com")] "type" (VStr "recipe")
     = VStr "recipe"
   /\ exists ingredients,
        snd (get_recipe_ingredients odd_api_world (VStr "pasta")
                                    (VStr "SPOONACULAR_API_KEY")) = Ok ingredients
        /\ str_join nl ingredients
           = Raise "sequence item 1: expected str instance, int found")
  \/ exists line,
       stdout_print odd_api_world line
       = Raise "sequence item 1: expected str instance, int found".
Proof.
  apply (dispatch_raises_only_from_join_or_print odd_api_world
           [("type", VStr "recipe"); ("food_type", VStr "pasta");
            ("recipient_email", VStr "a@b.com")]).
  reflexivity.
Defined.

(** ** More on [fetch_recent_emails] *)

Lemma fetch_one_eta (w : World) (email_id : string) :
  fetch_one w email_id = ([ImapFetch email_id "(RFC822)"], snd (fetch_one w email_id)).
Proof.
  rewrite <- (fetch_one_trace w email_id). destruct (fetch_one w email_id); reflexivity.
Qed.

(** The loop when every message can be fetched. *)
Lemma fetch_loop_run (w : World) (email_ids : list string) (summaries emails : list value) :
  Forall2 (fun email_id summary => snd (fetch_one w email_id) = Ok summary)
          email_ids summaries ->
  fetch_loop w email_ids emails = (fetch_calls email_ids, Ok (emails ++ summaries)%list).
Proof.
  intros Hall. revert emails.
  induction Hall as [| email_id summary ids rest Hone _ IH]; intros emails.
  - cbn. rewrite app_nil_r. reflexivity.
  - cbn [fetch_loop]. rewrite fetch_one_eta, Hone, bind_Ok, IH.
    cbn [fst snd fetch_calls map app]. rewrite <- app_assoc. reflexivity.
Qed.

(** The loop when the message [bad] cannot be fetched: it stops there. *)
Lemma fetch_loop_stops (w : World) (fetched : list string) (bad : string)
    (rest : list string) (summaries emails : list value) (e : exn) :
  Forall2 (fun email_id summary => snd (fetch_one w email_id) = Ok summary)
          fetched summaries ->
  snd (fetch_one w bad) = Raise e ->
  fetch_loop w (fetched ++ bad :: rest)%list emails
  = (fetch_calls (fetched ++ [bad])%list, Raise e).
Proof.
  intros Hall Hbad. revert emails.
  induction Hall as [| email_id summary ids sums Hone _ IH]; intros emails.
  - cbn [app fetch_loop]. rewrite fetch_one_eta, Hbad. reflexivity.
  - cbn [app fetch_loop]. rewrite fetch_one_eta, Hone, bind_Ok, IH. reflexivity.
Qed.

Lemma all_fetched (w : World) (email_ids : list string) :
  Forall (fun email_id => exists summary, snd (fetch_one w email_id) = Ok summary)
         email_ids ->
  exists summaries,
    Forall2 (fun email_id summary => snd (fetch_one w email_id) = Ok summary)
            email_ids summaries.
Proof.
  induction 1 as [| email_id rest [summary Hone] _ [summaries IH]].
  - exists []. constructor.
  - exists (summary :: summaries). constructor; assumption.
Qed.

Section Session.

Variable w : World.
Variable self : EmailAutomation.
Variables search_criteria search_data_0 : string.
Hypothesis Hconnect : imap_connect w (imap_server self) (imap_port self) = Ok tt.
Hypothesis Hlogin : imap_login w (email_address self) (email_password self) = Ok tt.
Hypothesis Hselect : imap_select w "inbox" = Ok tt.
Hypothesis Hsearch : imap_search w search_criteria = Ok search_data_0.

(** After a successful search everything depends on the loop over the
    selected ids. *)
Lemma fetch_after_search (limit : Z) :
  fetch_recent_emails w self search_criteria limit =
  try_except
    (let loop := fetch_loop w (slice_from (- limit) (bytes_split search_data_0)) [] in
     ((imap_opening self search_criteria
         ++ fst (bind loop (fun emails =>
                   bind (call ImapClose (imap_close w)) (fun _ =>
                   bind (call ImapLogout (imap_logout w)) (fun _ => ret emails)))))%list,
      snd (bind loop (fun emails =>
             bind (call ImapClose (imap_close w)) (fun _ =>
             bind (call ImapLogout (imap_logout w)) (fun _ => ret emails))))))
    (swallow_imap_error w).
Proof.
  unfold fetch_recent_emails. rewrite Hconnect, Hlogin, Hselect, Hsearch. run.
  reflexivity.
Qed.

Lemma fetch_selected_run (limit : Z) (emails : list value) :
  Forall2 (fun email_id summary => snd (fetch_one w email_id) = Ok summary)
          (slice_from (- limit) (bytes_split search_data_0)) emails ->
  imap_close w = Ok tt ->
  imap_logout w = Ok tt ->
  fetch_recent_emails w self search_criteria limit =
  ((imap_opening self search_criteria
      ++ fetch_calls (slice_from (- limit) (bytes_split search_data_0))
      ++ [ImapClose; ImapLogout])%list,
   Ok emails).
Proof.
  intros Hall Hclose Hlogout.
  rewrite fetch_after_search. cbn zeta.
  rewrite (fetch_loop_run w _ emails [] Hall), bind_Ok, Hclose, Hlogout. run.
  reflexivity.
Qed.

End Session.

(** X8.  A failure in the middle of the loop discards what was already
    fetched: when a selected message cannot be fetched, parsed or
    decoded, the messages after it are not requested, the session is
    left without [close] and [logout], and [fetch_recent_emails], once
    it has printed the error, returns the empty list. *)
Theorem fetch_failure_discards_all (w : World) (self : EmailAutomation)
    (search_criteria search_data_0 : string) (limit : Z)
    (fetched : list string) (bad : string) (rest : list string)
    (summaries : list value) (e : exn) :
  imap_connect w (imap_server self) (imap_port self) = Ok tt ->
  imap_login w (email_address self) (email_password self) = Ok tt ->
  imap_select w "inbox" = Ok tt ->
  imap_search w search_criteria = Ok search_data_0 ->
  slice_from (- limit) (bytes_split search_data_0) = (fetched ++ bad :: rest)%list ->
  Forall2 (fun email_id summary => snd (fetch_one w email_id) = Ok summary)
          fetched summaries ->
  snd (fetch_one w bad) = Raise e ->
  stdout_print w (imap_error_line e) = Ok tt ->
  fetch_recent_emails w self search_criteria limit =
  ((imap_opening self search_criteria ++ fetch_calls (fetched ++ [bad]))%list, Ok []).
Proof.
  intros Hconnect Hlogin Hselect Hsearch Hslice Hall Hbad Hprint.
  rewrite (fetch_after_search w self search_criteria search_data_0
             Hconnect Hlogin Hselect Hsearch).
  cbn zeta. rewrite Hslice, (fetch_loop_stops w fetched bad rest summaries [] e Hall Hbad).
  rewrite bind_Raise. cbn [fst snd]. unfold swallow_imap_error.
  rewrite (caught_print_ret (A := list value) w _ e
             (fun e0 => "IMAP Email fetching error: " ++ e0) (fun _ => [])).
  unfold imap_error_line in Hprint. rewrite Hprint. reflexivity.
Qed.

Lemma fetch_failure_discards_all_witness :
  fetch_recent_emails broken_inbox_world (account broken_inbox_world) "UNSEEN" 5 =
  ([ImapConnect "imap.gmail.com" 993;
    ImapLogin (VStr "EMAIL_ADDRESS") (VStr "EMAIL_PASSWORD");
    ImapSelect "inbox";
    ImapSearch "UNSEEN";
    ImapFetch "1" "(RFC822)";
    ImapFetch "9" "(RFC822)"],
   Ok []).
Proof.
  apply (fetch_failure_discards_all broken_inbox_world (account broken_inbox_world)
           "UNSEEN" "1 9 3" 5 ["1"] "9" ["3"]
           [VDict [("id", VBytes "1"); ("subject", VStr "Hello");
                   ("sender", VStr "bob@example.com"); ("body", VStr "Hi there")]]
           "no such message");
    try reflexivity.
  repeat constructor.
Defined.

Lemma slice_last_suffix {A} (limit : Z) (l : list A) :
  (0 < limit)%Z ->
  exists older,
    l = (older ++ slice_from (- limit) l)%list
    /\ length (slice_from (- limit) l) = Nat.min (Z.to_nat limit) (length l).
Proof.
  intros Hpos. split with (firstn (Z.to_nat (Z.max (- limit + Z.of_nat (length l)) 0)) l).
  split; [| apply slice_last_length; exact Hpos].
  unfold slice_from. destruct (Z.ltb_spec (- limit) 0) as [_ | Hge]; [| lia].
  symmetry. apply firstn_skipn.
Qed.

Lemma slice_negative_limit {A} (limit : Z) (l : list A) :
  (limit < 0)%Z ->
  slice_from (- limit) l = skipn (Z.to_nat (- limit)) l.
Proof.
  intros Hneg. unfold slice_from.
  destruct (Z.ltb_spec (- limit) 0) as [Hlt | _]; [lia |].
  destruct (Z.le_gt_cases (- limit) (Z.of_nat (length l))) as [Hle | Hgt].
  - rewrite Z.min_l by exact Hle. reflexivity.
  - rewrite Z.min_r by lia. rewrite Nat2Z.id.
    rewrite skipn_all. symmetry. apply skipn_all2. lia.
Qed.

(** X9.  With a positive [limit] and a session in which every matching
    message can be fetched, [fetch_recent_emails] fetches exactly the
    last [min(limit, matches)] ids of the search result, in the order of
    the search, and returns their summaries in that order; the session
    ends with [close] and [logout]. *)
Theorem fetch_positive_limit_last (w : World) (self : EmailAutomation)
    (search_criteria search_data_0 : string) (limit : Z) :
  (0 < limit)%Z ->
  imap_connect w (imap_server self) (imap_port self) = Ok tt ->
  imap_login w (email_address self) (email_password self) = Ok tt ->
  imap_select w "inbox" = Ok tt ->
  imap_search w search_criteria = Ok search_data_0 ->
  Forall (fun email_id => exists summary, snd (fetch_one w email_id) = Ok summary)
         (bytes_split search_data_0) ->
  imap_close w = Ok tt ->
  imap_logout w = Ok tt ->
  exists older selected emails,
    bytes_split search_data_0 = (older ++ selected)%list
    /\ length selected = Nat.min (Z.to_nat limit) (length (bytes_split search_data_0))
    /\ Forall2 (fun email_id summary => snd (fetch_one w email_id) = Ok summary)
               selected emails
    /\ fetch_recent_emails w self search_criteria limit =
       ((imap_opening self search_criteria ++ fetch_calls selected
           ++ [ImapClose; ImapLogout])%list,
        Ok emails).
Proof.
  intros Hpos Hconnect Hlogin Hselect Hsearch Hall Hclose Hlogout.
  destruct (slice_last_suffix limit (bytes_split search_data_0) Hpos)
    as (older & Hsplit & Hlen).
  rewrite Hsplit in Hall. apply Forall_app in Hall. destruct Hall as [_ Hall].
  destruct (all_fetched w _ Hall) as [emails Hemails].
  exists older, (slice_from (- limit) (bytes_split search_data_0)), emails.
  split; [exact Hsplit |]. split; [exact Hlen |]. split; [exact Hemails |].
  apply (fetch_selected_run w self search_criteria search_data_0); assumption.
Qed.

Lemma fetch_positive_limit_last_witness :
  exists older selected emails,
    bytes_split "1 2 3" = (older ++ selected)%list
    /\ length selected = Nat.min (Z.to_nat 2) (length (bytes_split "1 2 3"))
    /\ Forall2 (fun email_id summary => snd (fetch_one inbox_world email_id) = Ok summary)
               selected emails
    /\ fetch_recent_emails inbox_world (account inbox_world) "UNSEEN" 2 =
       ((imap_opening (account inbox_world) "UNSEEN" ++ fetch_calls selected
           ++ [ImapClose; ImapLogout])%list,
        Ok emails).
Proof.
  apply (fetch_positive_limit_last inbox_world (account inbox_world) "UNSEEN" "1 2 3" 2);
    try reflexivity.
  repeat constructor; eexists; reflexivity.
Defined.

(** X10.  With a negative [limit] the slice [email_ids[-limit:]] drops
    the first [-limit] ids instead of keeping the last ones: the
    summaries returned are those of every matching message but the
    first [-limit]. *)
Theorem fetch_negative_limit_drops_first (w : World) (self : EmailAutomation)
    (search_criteria search_data_0 : string) (limit : Z) (emails : list value) :
  (limit < 0)%Z ->
  imap_connect w (imap_server self) (imap_port self) = Ok tt ->
  imap_login w (email_address self) (email_password self) = Ok tt ->
  imap_select w "inbox" = Ok tt ->
  imap_search w search_criteria = Ok search_data_0 ->
  Forall2 (fun email_id summary => snd (fetch_one w email_id) = Ok summary)
          (skipn (Z.to_nat (- limit)) (bytes_split search_data_0)) emails ->
  imap_close w = Ok tt ->
  imap_logout w = Ok tt ->
  fetch_recent_emails w self search_criteria limit =
  ((imap_opening self search_criteria
      ++ fetch_calls (skipn (Z.to_nat (- limit)) (bytes_split search_data_0))
      ++ [ImapClose; ImapLogout])%list,
   Ok emails).
Proof.
  intros Hneg Hconnect Hlogin Hselect Hsearch Hall Hclose Hlogout.
  rewrite <- (slice_negative_limit limit (bytes_split search_data_0) Hneg) in *.
  apply (fetch_selected_run w self search_criteria search_data_0); assumption.
Qed.

Lemma fetch_negative_limit_witness :
  fetch_recent_emails inbox_world (account inbox_world) "UNSEEN" (-1) =
  ([ImapConnect "imap.gmail.com" 993;
    ImapLogin (VStr "EMAIL_ADDRESS") (VStr "EMAIL_PASSWORD");
    ImapSelect "inbox";
    ImapSearch "UNSEEN";
    ImapFetch "2" "(RFC822)";
    ImapFetch "3" "(RFC822)";
    ImapClose;
    ImapLogout],
   Ok (tl inbox_summaries)).
Proof.
  apply (fetch_negative_limit_drops_first inbox_world (account inbox_world)
           "UNSEEN" "1 2 3" (-1) (tl inbox_summaries));
    try reflexivity.
  repeat constructor.
Defined.

(** X11.  A [fetch_emails] request on an inbox where the search matches
    nothing: no message is fetched, the session is closed, and the
    client is sent [{"success": true, "emails": []}]. *)
Theorem fetch_emails_empty_inbox_reply (w : World) (data text search_data_0 : string)
    (entries : list (string * value)) :
  conn_recv w 1024 = Ok data ->
  data <> "" ->
  utf8_decode w data = Ok text ->
  json_loads w text = Ok (VDict entries) ->
  assoc "type" entries = Some (VStr "fetch_emails") ->
  imap_connect w "imap.gmail.com" 993 = Ok tt ->
  imap_login w (email_address (account w)) (email_password (account w)) = Ok tt ->
  imap_select w "inbox" = Ok tt ->
  imap_search w "UNSEEN" = Ok search_data_0 ->
  bytes_split search_data_0 = [] ->
  imap_close w = Ok tt ->
  imap_logout w = Ok tt ->
  conn_sendall w (JsonText (emails_response [])) = Ok tt ->
  fst (handle_client_connection w) =
  [ConnRecv 1024;
   ImapConnect "imap.gmail.com" 993;
   ImapLogin (email_address (account w)) (email_password (account w));
   ImapSelect "inbox";
   ImapSearch "UNSEEN";
   ImapClose;
   ImapLogout;
   ConnSendall (JsonText (emails_response []));
   ConnClose].
Proof.
  intros Hrecv Hdata Hdecode Hloads Htype Hconnect Hlogin Hselect Hsearch Hnone
         Hclose Hlogout Hsend.
  rewrite (handle_reply_run w data text (VDict entries) Hrecv Hdata Hdecode Hloads
             (imap_opening (account w) "UNSEEN" ++ [ImapClose; ImapLogout])%list
             (emails_response [])); [reflexivity | | reflexivity | exact Hsend].
  rewrite (dispatch_fetch_emails w entries Htype).
  rewrite (fetch_selected_run w (account w) "UNSEEN" search_data_0
             Hconnect Hlogin Hselect Hsearch 5 []); [| | exact Hclose | exact Hlogout].
  - rewrite Hnone. cbn [slice_from length skipn fetch_calls map app].
    rewrite bind_Ok. cbn. reflexivity.
  - rewrite Hnone. constructor.
Qed.

Lemma fetch_emails_empty_inbox_witness :
  fst (handle_client_connection empty_inbox_world) =
  [ConnRecv 1024;
   ImapConnect "imap.gmail.com" 993;
   ImapLogin (VStr "EMAIL_ADDRESS") (VStr "EMAIL_PASSWORD");
   ImapSelect "inbox";
   ImapSearch "UNSEEN";
   ImapClose;
   ImapLogout;
   ConnSendall (JsonText (emails_response []));
   ConnClose].
Proof.
  apply (fetch_emails_empty_inbox_reply empty_inbox_world
           "{type: fetch_emails}" "{type: fetch_emails}" ""
           [("type", VStr "fetch_emails")]);
    try reflexivity; discriminate.
Defined.

(** X12.  A [fetch_emails] request that finds at least one message is
    never answered with the list: each summary carries its [id] as a
    [bytes] object, [json.dumps] raises [TypeError], and, when the
    catch-all clause can print that error, the one object written to the
    client is [{"success": false, "message": "Object of type bytes is
    not JSON serializable"}]. *)
Theorem fetch_emails_found_never_listed (w : World) (data text : string)
    (entries : list (string * value)) (emails : list value) :
  conn_recv w 1024 = Ok data ->
  data <> "" ->
  utf8_decode w data = Ok text ->
  json_loads w text = Ok (VDict entries) ->
  assoc "type" entries = Some (VStr "fetch_emails") ->
  snd (fetch_recent_emails w (account w) "UNSEEN" 5) = Ok emails ->
  emails <> [] ->
  stdout_print w (handler_error_line
                    "Object of type bytes is not JSON serializable") = Ok tt ->
  conn_sendall w (JsonText (error_response
                              "Object of type bytes is not JSON serializable")) = Ok tt ->
  responses (fst (handle_client_connection w)) =
  [JsonText (error_response "Object of type bytes is not JSON serializable")].
Proof.
  intros Hrecv Hdata Hdecode Hloads Htype Hfetch Hne Hprint Hsend.
  pose proof (quiet_fetch_recent_emails w (account w) "UNSEEN" 5) as Hquiet.
  unfold quiet in Hquiet.
  destruct (fetch_recent_emails w (account w) "UNSEEN" 5) as [t r] eqn:Hrun.
  cbn [fst snd] in *. subst r.
  rewrite (fetch_emails_found_reply w data text entries t emails
             Hrecv Hdata Hdecode Hloads Htype Hrun Hne Hprint Hsend).
  cbn [responses]. rewrite responses_app.
  destruct (quiet_responses t Hquiet) as [-> _]. reflexivity.
Qed.

Lemma fetch_emails_found_never_listed_witness :
  responses (fst (handle_client_connection inbox_world)) =
  [JsonText (error_response "Object of type bytes is not JSON serializable")].
Proof.
  apply (fetch_emails_found_never_listed inbox_world
           "{type: fetch_emails}" "{type: fetch_emails}"
           [("type", VStr "fetch_emails")] inbox_summaries);
    try reflexivity; discriminate.
Defined.

(** X13.  A [fetch_emails] request whose IMAP session fails with [e]
    while it is opened (connection, login, mailbox selection or search)
    is answered [{"success": true, "emails": []}] once
    [fetch_recent_emails] has printed the error: the failure is not
    reported to the client. *)
Theorem fetch_emails_session_failure_reply (w : World) (data text : string)
    (entries : list (string * value)) (e : exn) :
  conn_recv w 1024 = Ok data ->
  data <> "" ->
  utf8_decode w data = Ok text ->
  json_loads w text = Ok (VDict entries) ->
  assoc "type" entries = Some (VStr "fetch_emails") ->
  (imap_connect w "imap.gmail.com" 993 = Raise e
   \/ (imap_connect w "imap.gmail.com" 993 = Ok tt
       /\ (imap_login w (email_address (account w)) (email_password (account w)) = Raise e
           \/ (imap_login w (email_address (account w)) (email_password (account w)) = Ok tt
               /\ (imap_select w "inbox" = Raise e
                   \/ (imap_select w "inbox" = Ok tt
                       /\ imap_search w "UNSEEN" = Raise e)))))) ->
  stdout_print w (imap_error_line e) = Ok tt ->
  conn_sendall w (JsonText (emails_response [])) = Ok tt ->
  snd (dispatch w (VDict entries)) = Ok (emails_response [])
  /\ responses (fst (handle_client_connection w)) = [JsonText (emails_response [])].
Proof.
  intros Hrecv Hdata Hdecode Hloads Htype Hfail Hprint Hsend.
  assert (Hd : snd (dispatch w (VDict entries)) = Ok (emails_response [])).
  { rewrite (dispatch_fetch_emails w entries Htype).
    unfold fetch_recent_emails. fold (swallow_imap_error w).
    cbn [account EmailAutomation_init imap_server imap_port email_address email_password]
      in *.
    assert (Hcaught : forall t, try_except (t, Raise e) (swallow_imap_error w)
                                = (t, Ok [])).
    { intros t. unfold swallow_imap_error.
      rewrite (caught_print_ret (A := list value) w t e
                 (fun e0 => "IMAP Email fetching error: " ++ e0) (fun _ => [])).
      unfold imap_error_line in Hprint. rewrite Hprint. reflexivity. }
    destruct Hfail as [-> | (-> & [-> | (-> & [-> | (-> & ->)])])];
      cbn [call bind fst snd app]; rewrite Hcaught, bind_Ok; reflexivity. }
  split; [exact Hd |].
  pose proof (quiet_dispatch w (VDict entries)) as Hquiet. unfold quiet in Hquiet.
  destruct (dispatch w (VDict entries)) as [t r] eqn:Hdispatch.
  cbn [fst snd] in *. subst r.
  rewrite (handle_reply w data text (VDict entries) Hrecv Hdata Hdecode Hloads t _
             Hdispatch eq_refl Hsend).
  cbn [responses]. rewrite responses_app.
  destruct (quiet_responses t Hquiet) as [-> _]. reflexivity.
Qed.

Lemma fetch_emails_session_failure_witness :
  snd (dispatch search_down_world (VDict [("type", VStr "fetch_emails")]))
    = Ok (emails_response [])
  /\ responses (fst (handle_client_connection search_down_world))
     = [JsonText (emails_response [])].
Proof.
  apply (fetch_emails_session_failure_reply search_down_world
           "{type: fetch_emails}" "{type: fetch_emails}"
           [("type", VStr "fetch_emails")] "socket error: EOF");
    try reflexivity; try discriminate.
  right. split; [reflexivity |]. right. split; [reflexivity |].
  right. split; reflexivity.
Defined.

(** X14.  A client cannot choose the search criterion or the limit: a
    [fetch_emails] request is handled the same way whatever other fields
    it carries. *)
Theorem fetch_emails_ignores_other_fields (w : World)
    (entries entries' : list (string * value)) :
  assoc "type" entries = Some (VStr "fetch_emails") ->
  assoc "type" entries' = Some (VStr "fetch_emails") ->
  dispatch w (VDict entries) = dispatch w (VDict entries').
Proof.
  intros Htype Htype'.
  rewrite (dispatch_fetch_emails w entries Htype),
          (dispatch_fetch_emails w entries' Htype').
  reflexivity.
Qed.

Lemma fetch_emails_ignores_other_fields_witness :
  dispatch inbox_world (VDict eager_fetch_request)
  = dispatch inbox_world (VDict [("type", VStr "fetch_emails")]).
Proof.
  apply (fetch_emails_ignores_other_fields inbox_world); reflexivity.
Defined.

(** ** Which services a request reaches *)

Lemma calls_only_ret {A} (P : event -> bool) (a : A) : calls_only P (ret a).
Proof. constructor. Qed.

Lemma calls_only_lift {A} (P : event -> bool) (r : result A) : calls_only P (lift r).
Proof. constructor. Qed.

Lemma calls_only_call {A} (P : event -> bool) (ev : event) (r : result A) :
  P ev = true -> calls_only P (call ev r).
Proof. intros H. repeat constructor. exact H. Qed.

Lemma calls_only_bind {A B} (P : event -> bool) (m : M A) (f : A -> M B) :
  calls_only P m -> (forall a, calls_only P (f a)) -> calls_only P (bind m f).
Proof.
  unfold calls_only. intros Hm Hf. destruct m as [t [a | e]].
  - rewrite bind_Ok. cbn [fst] in *. apply Forall_app. split; [exact Hm | apply Hf].
  - exact Hm.
Qed.

Lemma calls_only_try_except {A} (P : event -> bool) (m : M A) (h : exn -> M A) :
  calls_only P m -> (forall e, calls_only P (h e)) -> calls_only P (try_except m h).
Proof.
  unfold calls_only. intros Hm Hh. destruct m as [t [a | e]].
  - exact Hm.
  - rewrite try_except_Raise. cbn [fst] in *. apply Forall_app. split; [exact Hm | apply Hh].
Qed.

Lemma fetch_loop_only_imap (w : World) (email_ids : list string) (emails : list value) :
  calls_only is_imap (fetch_loop w email_ids emails).
Proof.
  revert emails. induction email_ids as [| email_id rest IH]; intros emails.
  - apply calls_only_ret.
  - cbn [fetch_loop]. apply calls_only_bind; [| intros summary; apply IH].
    unfold calls_only. rewrite fetch_one_trace. repeat constructor.
Qed.

Lemma fetch_recent_emails_only_imap (w : World) (self : EmailAutomation)
    (search_criteria : string) (limit : Z) :
  calls_only is_imap (fetch_recent_emails w self search_criteria limit).
Proof.
  unfold fetch_recent_emails.
  apply calls_only_try_except;
    [| intros e; apply calls_only_bind;
       [apply calls_only_lift | intros; apply calls_only_ret]].
  repeat (apply calls_only_bind;
          [first [apply calls_only_call; reflexivity | apply fetch_loop_only_imap]
          | intro]).
  apply calls_only_ret.
Qed.

(** X15.  A [fetch_emails] request reaches the IMAP server only: no
    HTTP request is made and no mail is sent while it is handled. *)
Theorem fetch_emails_calls_only_imap (w : World) (entries : list (string * value)) :
  assoc "type" entries = Some (VStr "fetch_emails") ->
  calls_only is_imap (dispatch w (VDict entries)).
Proof.
  intros Htype. rewrite (dispatch_fetch_emails w entries Htype).
  apply calls_only_bind; [apply fetch_recent_emails_only_imap |].
  intros emails. apply calls_only_ret.
Qed.

Lemma fetch_emails_calls_only_imap_witness :
  calls_only is_imap (dispatch inbox_world (VDict eager_fetch_request)).
Proof.
  apply (fetch_emails_calls_only_imap inbox_world eager_fetch_request). reflexivity.
Defined.

(** X16.  A recipe request never opens an IMAP session: every call made
    while it is handled is the HTTP request of the lookup or an SMTP
    call, and the HTTP request comes first. *)
Theorem recipe_calls_http_then_smtp (w : World) (entries : list (string * value)) :
  request_get entries "type" (VStr "recipe") = VStr "recipe" ->
  exists smtp,
    fst (dispatch w (VDict entries)) =
    HttpGet recipe_search_url
      (recipe_search_params (request_get entries "food_type" VNone) (api_key_of w))
    :: smtp
    /\ Forall (fun ev => is_smtp ev = true) smtp.
Proof.
  intros Htype. rewrite (dispatch_recipe w entries Htype).
  rewrite get_recipe_ingredients_eta.
  destruct (snd (get_recipe_ingredients w _ _)) as [ingredients | e0].
  2:{ cbn [bind fst]. eexists. split; [reflexivity | constructor]. }
  rewrite bind_Ok. cbn [fst app].
  eexists. split; [reflexivity |].
  destruct (truthy (VList _)); [| constructor].
  destruct (str_join nl _) as [joined | e]; [| constructor].
  run.
  pose proof (send_email_trace_smtp w (account w)
                (request_get entries "recipient_email" VNone)
                (recipe_subject w (request_get entries "food_type" VNone))
                (recipe_body w (request_get entries "food_type" VNone) joined)) as Hs.
  destruct (send_email w _ _ _ _) as [t [[success message] | e]]; cbn [fst] in Hs.
  - rewrite bind_Ok. cbn. rewrite app_nil_r. exact Hs.
  - exact Hs.
Qed.

Lemma recipe_calls_http_then_smtp_witness :
  exists smtp,
    fst (dispatch pasta_world pasta_request) =
    HttpGet recipe_search_url
      (recipe_search_params (VStr "pasta") (VStr "SPOONACULAR_API_KEY"))
    :: smtp
    /\ Forall (fun ev => is_smtp ev = true) smtp.
Proof.
  apply (recipe_calls_http_then_smtp pasta_world
           [("type", VStr "recipe"); ("food_type", VStr "pasta");
            ("recipient_email", VStr "a@b.com")]).
  reflexivity.
Defined.

(** X17.  [send_email] makes a single attempt, cut at the first step
    that raises: the calls it makes are exactly connect; then STARTTLS
    if connect succeeded; then login if STARTTLS succeeded; then, if the
    login succeeded and the message could be built, one [sendmail]; then
    [quit] if [sendmail] succeeded.  Nothing is retried and [quit] is
    not called after a failure. *)
Theorem send_email_single_attempt (w : World) (self : EmailAutomation)
    (recipient_email : value) (subject body : string) :
  fst (send_email w self recipient_email subject body) =
  (SmtpConnect (smtp_server self) (smtp_port self)
   :: match smtp_connect w (smtp_server self) (smtp_port self) with
      | Raise _ => []
      | Ok _ =>
      SmtpStarttls
      :: match smtp_starttls w with
         | Raise _ => []
         | Ok _ =>
         SmtpLogin (email_address self) (email_password self)
         :: match smtp_login w (email_address self) (email_password self) with
            | Raise _ => []
            | Ok _ =>
            match mime_as_string w (outgoing self recipient_email subject body) with
            | Raise _ => []
            | Ok text =>
            SmtpSendmail (email_address self) recipient_email text
            :: match smtp_sendmail w (email_address self) recipient_email text with
               | Raise _ => []
               | Ok _ => [SmtpQuit]
               end
            end
            end
         end
      end).
Proof.
  unfold send_email, outgoing.
  set (handler := fun e : exn => bind _ _).
  assert (Hcaught : forall t e, fst (try_except (t, Raise e) handler) = t).
  { intros t e. unfold handler.
    rewrite (caught_print_ret w t e (fun e0 => "SMTP Email sending error: " ++ e0)
                              (fun e0 => (false, e0))).
    reflexivity. }
  clearbody handler.
  destruct (smtp_connect w (smtp_server self) (smtp_port self)) as [[] | e];
    [| cbn [call lift ret bind fst snd app]; apply Hcaught].
  destruct (smtp_starttls w) as [[] | e];
    [| cbn [call lift ret bind fst snd app]; apply Hcaught].
  destruct (smtp_login w (email_address self) (email_password self)) as [[] | e];
    [| cbn [call lift ret bind fst snd app]; apply Hcaught].
  cbn [call lift ret bind fst snd app].
  destruct (mime_as_string w _) as [text | e];
    [| cbn [call lift ret bind fst snd app]; apply Hcaught].
  cbn [call lift ret bind fst snd app].
  destruct (smtp_sendmail w (email_address self) recipient_email text) as [[] | e];
    [| cbn [call lift ret bind fst snd app]; apply Hcaught].
  destruct (smtp_quit w) as [[] | e]; cbn [call lift ret bind fst snd app];
    [reflexivity | apply Hcaught].
Qed.
